(** * pdf-extractor: the classification and dual-path extraction pipeline

    A shallow embedding of [PDFExtractor] (src/pdf_extractor.py) and the
    properties its specification states about it.

    Modelling conventions.
    - A Python [str] is a Rocq [string]; one [ascii] stands for one
      character (a code point below 256).
    - [None] is [option]'s [None]; a Python truth test ([if text:],
      [if row:]) is written out as a boolean function.
    - The instance attributes, pytesseract's configured command and the
      records handed to [logging] form the [state] that every method
      threads through.
    - pdfplumber, pdf2image, OpenCV, NumPy, pytesseract and the file
      system are outside the repository: a [World] gives what each of
      their calls answers, either a value or a raised [Exception]
      (what [except Exception] catches). That includes [Path.exists],
      which answers with a [bool] or raises the [OSError] of the probe
      (a name too long for the file system, a directory that may not
      be searched); [logging] calls only append a record. *)

From Stdlib Require Import String Ascii List Bool Arith ZArith Lia.
Import ListNotations.
Open Scope string_scope.
Open Scope list_scope.

(** ** Python strings *)

Module Str.

(** The newline character and the one-character string holding it. *)
Definition newline : ascii := "010"%char.
Definition nl : string := String newline "".

(** [str.isspace] on one character: tab to carriage return (9-13), the
    separators 28-31, the space, NEL (133) and the no-break space (160). *)
Definition isspace (c : ascii) : bool :=
  let n := nat_of_ascii c in
  ((9 <=? n)%nat && (n <=? 13)%nat) || ((28 <=? n)%nat && (n <=? 32)%nat)
  || (n =? 133)%nat || (n =? 160)%nat.

(** Truth value of a string: false exactly for the empty one. *)
Definition truthy (s : string) : bool :=
  match s with
  | "" => false
  | String _ _ => true
  end.

Fixpoint lstrip (s : string) : string :=
  match s with
  | "" => ""
  | String c s' => if isspace c then lstrip s' else s
  end.

Fixpoint rstrip (s : string) : string :=
  match s with
  | "" => ""
  | String c s' =>
      match rstrip s' with
      | "" => if isspace c then "" else String c ""
      | r => String c r
      end
  end.

(** [s.strip()] *)
Definition strip (s : string) : string := rstrip (lstrip s).

(** [s.split('\n')]: one piece more than there are newlines. *)
Fixpoint split_lines (s : string) : list string :=
  match s with
  | "" => [""]
  | String c s' =>
      if Ascii.eqb c newline then "" :: split_lines s'
      else match split_lines s' with
           | [] => [String c ""]
           | piece :: pieces => String c piece :: pieces
           end
  end.

(** [sep.join(parts)] *)
Definition join (sep : string) (parts : list string) : string :=
  String.concat sep parts.

End Str.

(** ** Outcomes, state and the method monad *)

(** An [Exception] instance, identified by its message. *)
Definition exn : Type := string.

Inductive outcome (A : Type) : Type :=
| Return (a : A)
| Raise (e : exn).
Arguments Return {A} a.
Arguments Raise {A} e.

Inductive level : Type := INFO | WARNING | ERROR.

(** What a logging call reports; the wording of the message is left to
    the formatter. *)
Inductive message : Type :=
| TesseractNotFound
| PopplerNotFound
| Initialized
| InitDigitalInfo
| InitScannedInfo
| FileNotFound (pdf_path : string)
| ProcessingText (pdf_type pdf_path : string)
| TextCompleted (pdf_type : string) (characters : nat)
| TextError (pdf_path : string) (e : exn)
| ProcessingTables (pdf_type pdf_path : string)
| TablesFound (tables : nat)
| TableWarning
| ScannedDetected
| ReturnEmptyList
| TablesError (pdf_path : string) (e : exn)
| DetectionWarning (pdf_path : string) (e : exn)
| PageCharacters (page : nat) (characters : nat)
| OcrPageCharacters (page : nat) (characters : nat)
| OcrFailed (pdf_path : string) (e : exn)
| TableExtracted (page table rows : nat).

Record state : Type := mkState {
  tesseract_cmd : string;
  poppler_path : string;
  _extraction_mode : string;
  log : list (level * message)
}.

Definition M (A : Type) : Type := state -> outcome A * state.

Definition ret {A} (a : A) : M A := fun st => (Return a, st).

Definition raise {A} (e : exn) : M A := fun st => (Raise e, st).

Definition bind {A B} (m : M A) (k : A -> M B) : M B :=
  fun st =>
    match m st with
    | (Return a, st') => k a st'
    | (Raise e, st') => (Raise e, st')
    end.

(** [try: body except Exception as e: handler e] *)
Definition try_except {A} (body : M A) (handler : exn -> M A) : M A :=
  fun st =>
    match body st with
    | (Return a, st') => (Return a, st')
    | (Raise e, st') => handler e st'
    end.

(** A library call: its outcome enters the monad, the state is untouched. *)
Definition call {A} (o : outcome A) : M A := fun st => (o, st).

Declare Scope method_scope.
Delimit Scope method_scope with method.
Notation "x <- m ;; k" := (bind m (fun x => k))
  (at level 100, m at next level, right associativity) : method_scope.
Notation "m ;; k" := (bind m (fun _ => k))
  (at level 100, right associativity) : method_scope.
Notation "'try' b 'except' h" := (try_except b h)
  (at level 100, b at next level, h at next level) : method_scope.
Open Scope method_scope.

Definition emit (lv : level) (msg : message) : M unit :=
  fun st =>
    (Return tt,
     {| tesseract_cmd := tesseract_cmd st;
        poppler_path := poppler_path st;
        _extraction_mode := _extraction_mode st;
        log := log st ++ [(lv, msg)] |}).

Definition logging_info : message -> M unit := emit INFO.
Definition logging_warning : message -> M unit := emit WARNING.
Definition logging_error : message -> M unit := emit ERROR.

(** [self._extraction_mode = value] *)
Definition set_extraction_mode (value : string) : M unit :=
  fun st =>
    (Return tt,
     {| tesseract_cmd := tesseract_cmd st;
        poppler_path := poppler_path st;
        _extraction_mode := value;
        log := log st |}).

(** [self.poppler_path] *)
Definition get_poppler_path : M string := fun st => (Return (poppler_path st), st).
Definition get_tesseract_cmd : M string := fun st => (Return (tesseract_cmd st), st).

(** [for i, x in enumerate(xs, start): acc = body i x acc] *)
Fixpoint for_enumerate {A T} (start : nat) (xs : list A)
    (body : nat -> A -> T -> M T) (acc : T) : M T :=
  match xs with
  | [] => ret acc
  | x :: rest =>
      acc' <- body start x acc ;;
      for_enumerate (S start) rest body acc'
  end.

(** The result and the final state of running a method. *)
Definition result {A} (m : M A) (st : state) : outcome A := fst (m st).
Definition final {A} (m : M A) (st : state) : state := snd (m st).

(** ** The libraries and the file system *)

(** A cell as pdfplumber reports it, a row of a candidate table (the
    code allows for a row that is [None]), a candidate table. *)
Definition Cell : Type := option string.
Definition Row : Type := option (list Cell).
Definition Candidate : Type := list Row.

(** A cleaned table: rows of strings. *)
Definition Table : Type := list (list string).

(** A pdfplumber page, by what its two methods answer. *)
Record Page : Type := mkPage {
  page_extract_text : outcome (option string);
  page_extract_tables : outcome (list Candidate)
}.

(** An opened pdfplumber document, by what [pdf.pages] answers. *)
Record PDF : Type := mkPDF {
  pages : outcome (list Page)
}.

Record World : Type := mkWorld {
  Image : Type;
  ndarray : Type;
  (** [Path(p).exists()], the one library call the methods make
      outside a [try] block; it raises the [OSError]s that are not
      about a missing file *)
  path_exists : string -> outcome bool;
  (** [pdfplumber.open(p)] *)
  pdfplumber_open : string -> outcome PDF;
  (** [convert_from_path(p, dpi=300, poppler_path=...)] *)
  convert_from_path : string -> nat -> string -> outcome (list Image);
  (** [np.array(image)] *)
  np_array : Image -> outcome ndarray;
  (** [cv2.cvtColor(img, cv2.COLOR_RGB2GRAY)] *)
  cv2_cvtColor_RGB2GRAY : ndarray -> outcome ndarray;
  (** [cv2.threshold(gray, 0, 255, THRESH_BINARY + THRESH_OTSU)[1]] *)
  cv2_threshold_otsu : ndarray -> outcome ndarray;
  (** [pytesseract.image_to_string(thresh, config='--psm 6')], run
      with the configured command *)
  image_to_string : string -> ndarray -> outcome string
}.

(** ** PDFExtractor *)

Definition OCR_FALLBACK : string :=
  "OCR Functionaliy Not Available On This Platform".

(** Truth value of an optional string ([if text:]). *)
Definition text_truthy (text : option string) : bool :=
  match text with
  | Some t => Str.truthy t
  | None => false
  end.

(** Truth value of a row ([if row:]): false for [None] and for []. *)
Definition row_truthy (row : Row) : bool :=
  match row with
  | Some (_ :: _) => true
  | _ => false
  end.

(** [cell.strip() if cell else ""] *)
Definition clean_cell (cell : Cell) : string :=
  match cell with
  | Some c => if Str.truthy c then Str.strip c else ""
  | None => ""
  end.

(** The inner loop of [_extract_tables_digital] over the rows of one
    candidate, started from [cleaned_table = []]. *)
Definition clean_table (table : Candidate) : Table :=
  fold_left
    (fun cleaned_table row =>
       match row with
       | Some (c :: cs) => cleaned_table ++ [map clean_cell (c :: cs)]
       | _ => cleaned_table
       end)
    table [].

(** The cleanup of one page's recognised text in [_extract_text_scanned]. *)
Definition clean_ocr_text (text : string) : string :=
  let lines :=
    map Str.strip
        (filter (fun line => Str.truthy (Str.strip line)) (Str.split_lines text)) in
  Str.join Str.nl lines.

Section PDFExtractor.

Variable w : World.

(** [__init__] run on a fresh instance; [default_tesseract_cmd] is the
    command pytesseract is configured with beforehand. An error of
    [exists()] on a default path leaves the constructor. *)
Definition init (default_tesseract_cmd : string)
    (tesseract_path poppler_path : option string) : outcome state :=
  let cmd_and_log :=
    match tesseract_path with
    | Some (String c p) => Return (String c p, [])
    | _ =>
        match path_exists w "YOUR OCR PATH" with
        | Return true => Return ("YOUR OCR PATH", [])
        | Return false =>
            Return (default_tesseract_cmd, [(WARNING, TesseractNotFound)])
        | Raise e => Raise e
        end
    end in
  match cmd_and_log with
  | Raise e => Raise e
  | Return (cmd, cmd_log) =>
      let poppler_and_log :=
        match poppler_path with
        | Some (String c p) => Return (String c p, [])
        | _ =>
            match path_exists w "YOUR POPPLER PATH" with
            | Return true => Return ("YOUR POPPLER PATH", [])
            | Return false =>
                Return ("YOUR POPPLER PATH", [(WARNING, PopplerNotFound)])
            | Raise e => Raise e
            end
        end in
      match poppler_and_log with
      | Raise e => Raise e
      | Return (poppler, poppler_log) =>
          Return
            {| tesseract_cmd := cmd;
               poppler_path := poppler;
               _extraction_mode := "unknown";
               log := cmd_log ++ poppler_log
                      ++ [(INFO, Initialized); (INFO, InitDigitalInfo);
                          (INFO, InitScannedInfo)] |}
      end
  end.

Definition get_extraction_mode : M string :=
  fun st => (Return (_extraction_mode st), st).

Definition _detect_pdf_type (pdf_path : string) : M string :=
  try (
    pdf <- call (pdfplumber_open w pdf_path) ;;
    pdf_pages <- call (pages pdf) ;;
    match pdf_pages with
    | [] => ret "scanned"
    | first_page :: _ =>
        text <- call (page_extract_text first_page) ;;
        match text with
        | Some t =>
            if Str.truthy t && (50 <? String.length (Str.strip t))%nat
            then ret "digital"
            else ret "scanned"
        | None => ret "scanned"
        end
    end)
  except (fun e =>
    logging_warning (DetectionWarning pdf_path e) ;;
    ret "scanned").

(** One turn of the loop over [pdf.pages] in [_extract_text_digital]. *)
Definition _extract_text_digital_page (page_num : nat) (page : Page)
    (all_text : list string) : M (list string) :=
  text <- call (page_extract_text page) ;;
  let all_text' :=
    match text with
    | Some t => if Str.truthy t then all_text ++ [t] else all_text
    | None => all_text
    end in
  logging_info
    (PageCharacters (page_num + 1)
       (match text with
        | Some t => if Str.truthy t then String.length t else 0
        | None => 0
        end)) ;;
  ret all_text'.

Definition _extract_text_digital (pdf_path : string) : M string :=
  pdf <- call (pdfplumber_open w pdf_path) ;;
  pdf_pages <- call (pages pdf) ;;
  all_text <- for_enumerate 0 pdf_pages _extract_text_digital_page [] ;;
  ret (Str.join Str.nl all_text).

(** One turn of the loop over [images] in [_extract_text_scanned]. *)
Definition _extract_text_scanned_page (page_num : nat) (image : Image w)
    (all_text : list string) : M (list string) :=
  img_cv <- call (np_array w image) ;;
  gray <- call (cv2_cvtColor_RGB2GRAY w img_cv) ;;
  thresh <- call (cv2_threshold_otsu w gray) ;;
  cmd <- get_tesseract_cmd ;;
  text <- call (image_to_string w cmd thresh) ;;
  let page_text := clean_ocr_text text in
  let all_text' := all_text ++ [page_text] in
  logging_info (OcrPageCharacters (page_num + 1) (String.length page_text)) ;;
  ret all_text'.

Definition _extract_text_scanned (pdf_path : string) : M string :=
  try (
    poppler <- get_poppler_path ;;
    images <- call (convert_from_path w pdf_path 300 poppler) ;;
    all_text <- for_enumerate 0 images _extract_text_scanned_page [] ;;
    ret (Str.join (Str.nl ++ Str.nl)%string all_text))
  except (fun e =>
    logging_error (OcrFailed pdf_path e) ;;
    ret OCR_FALLBACK).

(** One turn of the loop over [tables] of page [page_num]. *)
Definition _extract_tables_digital_table (page_num table_num : nat)
    (table : Candidate) (all_tables : list Table) : M (list Table) :=
  let cleaned_table := clean_table table in
  match cleaned_table with
  | [] => ret all_tables
  | _ :: _ =>
      logging_info
        (TableExtracted (page_num + 1) (table_num + 1)
           (List.length cleaned_table)) ;;
      ret (all_tables ++ [cleaned_table])
  end.

(** One turn of the loop over [pdf.pages] in [_extract_tables_digital]. *)
Definition _extract_tables_digital_page (page_num : nat) (page : Page)
    (all_tables : list Table) : M (list Table) :=
  tables <- call (page_extract_tables page) ;;
  for_enumerate 0 tables (_extract_tables_digital_table page_num) all_tables.

Definition _extract_tables_digital (pdf_path : string) : M (list Table) :=
  pdf <- call (pdfplumber_open w pdf_path) ;;
  pdf_pages <- call (pages pdf) ;;
  for_enumerate 0 pdf_pages _extract_tables_digital_page [].

Definition extract_text (pdf_path : string) : M string :=
  let pdf_path_obj := pdf_path in
  found <- call (path_exists w pdf_path_obj) ;;
  if negb found then
    logging_error (FileNotFound pdf_path) ;;
    ret ""
  else
    try (
      pdf_type <- _detect_pdf_type pdf_path_obj ;;
      set_extraction_mode pdf_path ;;
      logging_info (ProcessingText pdf_type pdf_path_obj) ;;
      text <- (if String.eqb pdf_type "digital"
               then _extract_text_digital pdf_path_obj
               else _extract_text_scanned pdf_path_obj) ;;
      logging_info (TextCompleted pdf_type (String.length text)) ;;
      ret text)
    except (fun e =>
      logging_error (TextError pdf_path e) ;;
      ret "").

Definition extract_tables (pdf_path : string) : M (list Table) :=
  let pdf_path_obj := pdf_path in
  found <- call (path_exists w pdf_path_obj) ;;
  if negb found then
    logging_error (FileNotFound pdf_path) ;;
    ret []
  else
    try (
      pdf_type <- _detect_pdf_type pdf_path_obj ;;
      set_extraction_mode pdf_type ;;
      logging_info (ProcessingTables pdf_type pdf_path_obj) ;;
      if String.eqb pdf_type "digital" then
        tables <- _extract_tables_digital pdf_path_obj ;;
        logging_info (TablesFound (List.length tables)) ;;
        ret tables
      else
        logging_warning TableWarning ;;
        logging_warning ScannedDetected ;;
        logging_warning ReturnEmptyList ;;
        ret [])
    except (fun e =>
      logging_error (TablesError pdf_path e) ;;
      ret []).

End PDFExtractor.

(** ** Fixtures: a small world to run the methods in *)

Module Fixtures.

Definition page_one : string :=
  "Invoice No: INV-2024-001   Date: 12/03/2024   Vendor: Acme Supplies Ltd".
Definition page_two : string := "Total: $1,250.00".

Definition items : Candidate :=
  [ Some [Some " Item "; Some "Qty"; None];
    None;
    Some [];
    Some [None; Some "  2 "; Some "4.50"] ].

Definition blank : Candidate := [None; Some []].

Definition digital_pdf : PDF :=
  mkPDF (Return
    [ mkPage (Return (Some page_one)) (Return [items; blank]);
      mkPage (Return None) (Return []);
      mkPage (Return (Some page_two)) (Return [[Some [Some "x"]]]) ]).

Definition scanned_pdf : PDF :=
  mkPDF (Return
    [ mkPage (Return (Some "  ")) (Return []);
      mkPage (Return (Some page_one)) (Return [items]) ]).

Definition empty_pdf : PDF := mkPDF (Return []).

Definition pdfs (p : string) : outcome PDF :=
  if String.eqb p "digital.pdf" then Return digital_pdf
  else if String.eqb p "scanned.pdf" then Return scanned_pdf
  else if String.eqb p "damaged.pdf" then Return scanned_pdf
  else if String.eqb p "empty.pdf" then Return empty_pdf
  else Raise "PDFSyntaxError".

(** An image is given by the text the recogniser reads off it; the
    image ["?"] is one it fails on. *)
Definition rasters (p : string) (dpi : nat) (poppler : string) :
    outcome (list string) :=
  if String.eqb p "scanned.pdf" then
    Return [ String " " ("Hello " ++ Str.nl ++ "  " ++ Str.nl ++ " world")%string;
             "   ";
             "Bye" ]
  else if String.eqb p "damaged.pdf" then Return ["Hello"; "?"; "Bye"]
  else Raise "PDFInfoNotInstalledError".

Definition world : World :=
  {| Image := string;
     ndarray := string;
     path_exists := fun p =>
       Return
         (String.eqb p "digital.pdf" || String.eqb p "scanned.pdf"
          || String.eqb p "damaged.pdf" || String.eqb p "empty.pdf"
          || String.eqb p "garbage.pdf");
     pdfplumber_open := pdfs;
     convert_from_path := rasters;
     np_array := fun image => Return image;
     cv2_cvtColor_RGB2GRAY := fun img => Return img;
     cv2_threshold_otsu := fun gray => Return gray;
     image_to_string := fun cmd thresh =>
       if String.eqb thresh "?" then Raise "TesseractError" else Return thresh |}.

(** The extractor as constructed without arguments; in this world the
    constructor returns. *)
Definition fresh : state :=
  match init world "tesseract" None None with
  | Return st => st
  | Raise _ => mkState "tesseract" "YOUR POPPLER PATH" "unknown" []
  end.

End Fixtures.

(** ** Vocabulary of the specification *)

(** A string that neither starts nor ends with a whitespace character. *)
Definition no_surrounding_whitespace (s : string) : Prop :=
  (forall c r, s = String c r -> Str.isspace c = false)
  /\ (forall r c, s = (r ++ String c "")%string -> Str.isspace c = false).

(** [st] with further records appended to the log. *)
Definition with_log (st : state) (records : list (level * message)) : state :=
  {| tesseract_cmd := tesseract_cmd st;
     poppler_path := poppler_path st;
     _extraction_mode := _extraction_mode st;
     log := log st ++ records |}.

(** The part of the state that logging does not touch. *)
Definition attributes (st : state) : string * string * string :=
  (tesseract_cmd st, poppler_path st, _extraction_mode st).

(** The tool configuration alone. *)
Definition tools (st : state) : string * string :=
  (tesseract_cmd st, poppler_path st).

(** A method that leaves a view of the state as it found it. *)
Definition keeps {A B} (view : state -> B) (m : M A) : Prop :=
  forall st, view (snd (m st)) = view st.

(** The four library calls made for one image succeed in turn and the
    recogniser reads [text]. *)
Definition recognized (w : World) (cmd : string) (image : Image w)
    (text : string) : Prop :=
  exists img_cv gray thresh,
    np_array w image = Return img_cv
    /\ cv2_cvtColor_RGB2GRAY w img_cv = Return gray
    /\ cv2_threshold_otsu w gray = Return thresh
    /\ image_to_string w cmd thresh = Return text.

(** One of the four library calls made for one image raises. *)
Definition recognition_fails (w : World) (cmd : string) (image : Image w) : Prop :=
  (exists e, np_array w image = Raise e)
  \/ (exists img_cv e,
        np_array w image = Return img_cv
        /\ cv2_cvtColor_RGB2GRAY w img_cv = Raise e)
  \/ (exists img_cv gray e,
        np_array w image = Return img_cv
        /\ cv2_cvtColor_RGB2GRAY w img_cv = Return gray
        /\ cv2_threshold_otsu w gray = Raise e)
  \/ (exists img_cv gray thresh e,
        np_array w image = Return img_cv
        /\ cv2_cvtColor_RGB2GRAY w img_cv = Return gray
        /\ cv2_threshold_otsu w gray = Return thresh
        /\ image_to_string w cmd thresh = Raise e).

(** Rasterization fails, or recognition fails on some page image. *)
Definition ocr_fails (w : World) (st : state) (pdf_path : string) : Prop :=
  (exists e, convert_from_path w pdf_path 300 (poppler_path st) = Raise e)
  \/ (exists images,
        convert_from_path w pdf_path 300 (poppler_path st) = Return images
        /\ Exists (recognition_fails w (tesseract_cmd st)) images).

(** Every page of the list answers [extract_text] with the text listed
    for it. *)
Definition pages_read (ps : list Page) (texts : list (option string)) : Prop :=
  Forall2 (fun page text => page_extract_text page = Return text) ps texts.

(** The page texts that are not empty, in page order. *)
Definition kept_texts (texts : list (option string)) : list string :=
  flat_map
    (fun text =>
       match text with
       | Some t => if Str.truthy t then [t] else []
       | None => []
       end)
    texts.

(** The rows of a candidate that are neither [None] nor empty, in order. *)
Definition kept_rows (table : Candidate) : list (list Cell) :=
  flat_map
    (fun row =>
       match row with
       | Some (c :: cs) => [c :: cs]
       | _ => []
       end)
    table.

(** [table] is a candidate that some page of the document reports. *)
Definition candidate_of (w : World) (pdf_path : string) (table : Candidate) : Prop :=
  exists pdf ps page tables,
    pdfplumber_open w pdf_path = Return pdf
    /\ pages pdf = Return ps
    /\ In page ps
    /\ page_extract_tables page = Return tables
    /\ In table tables.

(** [table] is what cleaning leaves of some candidate of the document,
    and it has a row. *)
Definition cleaned_candidate (w : World) (pdf_path : string) (table : Table) : Prop :=
  table <> []
  /\ exists candidate,
       candidate_of w pdf_path candidate /\ table = clean_table candidate.

Ltac run_method :=
  unfold result, final, try_except, bind, call, ret, raise, logging_info,
    logging_warning, logging_error, emit, set_extraction_mode,
    get_poppler_path, get_tesseract_cmd in *; simpl in *.

(** ** DataExporter (src/data_exporter.py) *)

Module DataExporter.

(** The character class of the pattern [[\\/*?\[\]:]]: backslash,
    slash, star, question mark, the two square brackets and the colon. *)
Definition forbidden (c : ascii) : bool :=
  existsb (Ascii.eqb c) ["\"; "/"; "*"; "?"; "["; "]"; ":"]%char.

(** [re.sub(r'[\\/*?\[\]:]', '', s)]: every character of the class is
    removed. *)
Fixpoint re_sub_forbidden (s : string) : string :=
  match s with
  | "" => ""
  | String c s' =>
      if forbidden c then re_sub_forbidden s'
      else String c (re_sub_forbidden s')
  end.

(** The slice [s[:stop]]: the first [stop] characters, or for a
    negative [stop] all but the last [-stop]. *)
Definition slice_to (s : string) (stop : Z) : string :=
  if (0 <=? stop)%Z then String.substring 0 (Z.to_nat stop) s
  else String.substring 0 (Z.to_nat (Z.of_nat (String.length s) + stop)) s.

Definition default_max_length : Z := 31%Z.

Definition _clean_sheet_name (sheet_name : string) (max_length : Z) : string :=
  let cleaned := re_sub_forbidden sheet_name in
  let cleaned :=
    if (max_length <? Z.of_nat (String.length cleaned))%Z
    then slice_to cleaned max_length
    else cleaned in
  if negb (Str.truthy (Str.strip cleaned)) then "Sheet1" else cleaned.

End DataExporter.

(** ** TextProcessor (src/pdf_extractor.py) *)

Module TextProcessor.

(** What the method reads off a match object: [group(0)],
    [lastindex], and [group(1)], which is [None] when the first group
    took no part in the match. *)
Record Match : Type := mkMatch {
  group0 : string;
  lastindex : option nat;
  group1 : option string
}.

(** The one record the method logs. *)
Inductive notice : Type := NoPatternMatched.

Section Patterns.

(** [re.search(pattern, text, re.IGNORECASE)]: no match, a match, or
    a raised error (a pattern that does not compile). *)
Variable re_search : string -> string -> outcome (option Match).

(** [match.group(1).strip() if match.lastindex else match.group(0).strip()];
    [None.strip()] raises. *)
Definition matched_text (m : Match) : outcome string :=
  match lastindex m with
  | Some (S _) =>
      match group1 m with
      | Some g => Return (Str.strip g)
      | None => Raise "AttributeError"
      end
  | _ => Return (Str.strip (group0 m))
  end.

(** The result and the records logged on the way. *)
Fixpoint _extract_with_patterns (text : string) (patterns : list string)
    : outcome (option string) * list (level * notice) :=
  match patterns with
  | [] => (Return None, [(WARNING, NoPatternMatched)])
  | pattern :: rest =>
      match re_search pattern text with
      | Raise e => (Raise e, [])
      | Return (Some m) =>
          match matched_text m with
          | Return found => (Return (Some found), [])
          | Raise e => (Raise e, [])
          end
      | Return None => _extract_with_patterns text rest
      end
  end.

Definition extract_with_custom_pattern (text pattern : string) :=
  _extract_with_patterns text [pattern].

End Patterns.

End TextProcessor.

(** ** The extraction steps of the upload endpoint (src/app.py) *)

(** [extract_pdf], lines 78 to 92: the three calls on the shared
    extractor that fill the response, giving [text], [tables] and
    [extraction_mode]. *)
Definition extraction_steps (w : World) (file_path : string)
    : M (string * list Table * string) :=
  text <- extract_text w file_path ;;
  tables <- extract_tables w file_path ;;
  mode <- get_extraction_mode ;;
  ret (text, tables, mode).

(** ** Further vocabulary *)

(** The characters of a string. *)
Definition chars (s : string) : list ascii := list_ascii_of_string s.

(** The cleaned candidates of a page that keep a row, in order. *)
Definition kept_tables (candidates : list Candidate) : list Table :=
  flat_map
    (fun candidate =>
       match clean_table candidate with
       | [] => []
       | row :: rows => [row :: rows]
       end)
    candidates.

(** Every page of the list answers [extract_tables] with the
    candidates listed for it. *)
Definition pages_tabled (ps : list Page) (found : list (list Candidate)) : Prop :=
  Forall2 (fun page candidates => page_extract_tables page = Return candidates)
    ps found.

(** A cleaned table read back as a candidate, as when the tables of a
    response are sent in again. *)
Definition as_candidate (table : Table) : Candidate :=
  map (fun row => Some (map Some row)) table.

(** The lines that the cleanup of a page's recognised text keeps:
    the lines that are not blank, stripped. *)
Definition ocr_lines (text : string) : list string :=
  map Str.strip
    (filter (fun line => Str.truthy (Str.strip line)) (Str.split_lines text)).

(** A second world: a digital document whose second page cannot be
    parsed. *)
Module Torn.

Definition torn_pdf : PDF :=
  mkPDF (Return
    [ mkPage (Return (Some Fixtures.page_one)) (Return [Fixtures.items]);
      mkPage (Raise "PDFSyntaxError") (Raise "PDFSyntaxError");
      mkPage (Return (Some Fixtures.page_two)) (Return []) ]).

Definition world : World :=
  {| Image := string;
     ndarray := string;
     path_exists := fun p => Return (String.eqb p "torn.pdf");
     pdfplumber_open := fun p =>
       if String.eqb p "torn.pdf" then Return torn_pdf else Raise "PDFSyntaxError";
     convert_from_path := fun _ _ _ => Raise "PDFInfoNotInstalledError";
     np_array := fun image => Return image;
     cv2_cvtColor_RGB2GRAY := fun img => Return img;
     cv2_threshold_otsu := fun gray => Return gray;
     image_to_string := fun _ thresh => Return thresh |}.

(** A recogniser for the fixtures: the pattern ["\d+"] finds the first
    run of digits, every other pattern finds nothing. *)
Fixpoint digits_from (s : string) : string :=
  match s with
  | "" => ""
  | String c s' =>
      if (48 <=? nat_of_ascii c)%nat && (nat_of_ascii c <=? 57)%nat
      then String c (digits_from s') else ""
  end.

Fixpoint first_digits (s : string) : option string :=
  match s with
  | "" => None
  | String c s' =>
      match digits_from s with
      | "" => first_digits s'
      | found => Some found
      end
  end.

Definition re_search (pattern text : string) : outcome (option TextProcessor.Match) :=
  if String.eqb pattern "\d+" then
    Return (option_map (fun found => TextProcessor.mkMatch found None None)
              (first_digits text))
  else if String.eqb pattern "(" then Raise "re.error"
  else Return None.

End Torn.

(** A third world: a file system that refuses names of more than 255
    characters, as [stat] does with [ENAMETOOLONG]; nothing exists in
    it. *)
Module TooLong.


Definition world : World :=
  {| Image := string;
     ndarray := string;
     path_exists := fun p =>
       if (255 <? String.length p)%nat
       then Raise "OSError: [Errno 36] File name too long"
       else Return false;
     pdfplumber_open := fun _ => Raise "FileNotFoundError";
     convert_from_path := fun _ _ _ => Raise "PDFPageCountError";
     np_array := fun image => Return image;
     cv2_cvtColor_RGB2GRAY := fun img => Return img;
     cv2_threshold_otsu := fun gray => Return gray;
     image_to_string := fun _ thresh => Return thresh |}.

Definition fresh : state :=
  match init world "tesseract" None None with
  | Return st => st
  | Raise _ => mkState "tesseract" "YOUR POPPLER PATH" "unknown" []
  end.

End TooLong.

(** ** Facts about the string operations *)

Module StrFacts.
Import Str.

Lemma strip_empty : strip "" = "".
Proof. reflexivity. Qed.

Lemma lstrip_head s c r : lstrip s = String c r -> isspace c = false.
Proof.
  induction s as [|a s IH]; simpl; [discriminate|].
  destruct (isspace a) eqn:Ha; [exact IH|].
  intros H; injection H as -> _; exact Ha.
Qed.

Lemma rstrip_keeps_head c s :
  isspace c = false -> exists r, rstrip (String c s) = String c r.
Proof.
  intros Hc; simpl. destruct (rstrip s); [rewrite Hc|]; eauto.
Qed.

Lemma append_single_inv a t r c :
  String a t = (r ++ String c "")%string ->
  (t = "" /\ r = "" /\ a = c)
  \/ (exists r', r = String a r' /\ t = (r' ++ String c "")%string).
Proof.
  destruct r as [|b r']; simpl; intros H; injection H as -> ->; eauto.
Qed.

Lemma rstrip_last s : forall r c,
  rstrip s = (r ++ String c "")%string -> isspace c = false.
Proof.
  induction s as [|a s IH]; intros r c; simpl.
  - destruct r; discriminate.
  - destruct (rstrip s) as [|b t] eqn:Hs.
    + destruct (isspace a) eqn:Ha.
      * destruct r; discriminate.
      * intros H. apply append_single_inv in H as [(_ & _ & <-)|(r' & _ & H)];
          [exact Ha | destruct r'; discriminate].
    + intros H. apply append_single_inv in H as [(H & _)|(r' & _ & H)];
        [discriminate | exact (IH _ _ H)].
Qed.

Lemma strip_no_surrounding_whitespace s : no_surrounding_whitespace (strip s).
Proof.
  unfold no_surrounding_whitespace, strip; split.
  - intros c r H. destruct (lstrip s) as [|a t] eqn:Hl; [discriminate|].
    pose proof (lstrip_head _ _ _ Hl) as Ha.
    destruct (rstrip_keeps_head a t Ha) as [r' Hr].
    rewrite Hr in H. injection H as <- _. exact Ha.
  - intros r c H. exact (rstrip_last _ _ _ H).
Qed.

Lemma empty_no_surrounding_whitespace : no_surrounding_whitespace "".
Proof. exact (strip_no_surrounding_whitespace ""). Qed.

Lemma truthy_false s : truthy s = false -> s = "".
Proof. destruct s; [reflexivity | discriminate]. Qed.

End StrFacts.

(** ** Facts about the method monad *)

Lemma bind_call_return {A B} (a : A) (k : A -> M B) :
  bind (call (Return a)) k = k a.
Proof. reflexivity. Qed.


(** A [try] whose handler always returns yields a value, whatever the
    body does. *)
Lemma try_except_returns {A} (body : M A) (handler : exn -> M A) :
  (forall e st, exists a, result (handler e) st = Return a) ->
  forall st, exists a, result (try body except handler) st = Return a.
Proof.
  intros Hh st. unfold result, try_except.
  destruct (body st) as [[a|e] st'] eqn:Hb; simpl; [eauto|].
  apply Hh.
Qed.

(** Loop invariant rule for [for_enumerate]. *)
Lemma for_enumerate_invariant {A T} (P : T -> Prop) (body : nat -> A -> T -> M T) :
  forall xs,
  (forall i x acc st acc' st',
      In x xs -> P acc -> body i x acc st = (Return acc', st') -> P acc') ->
  forall start acc st acc' st',
    P acc -> for_enumerate start xs body acc st = (Return acc', st') -> P acc'.
Proof.
  induction xs as [|x xs IH]; intros Hbody start acc st acc' st' Hacc; simpl.
  - unfold ret. intros H; injection H as <- _; exact Hacc.
  - unfold bind. destruct (body start x acc st) as [[a|e] st1] eqn:Hb;
      [|discriminate].
    apply IH.
    + intros i y b s b' s' Hy. apply Hbody. right; exact Hy.
    + eapply Hbody; [left; reflexivity | exact Hacc | exact Hb].
Qed.

(** *** Frame rules *)

Section Frames.

Context {B : Type} (view : state -> B).

Lemma keeps_ret {A} (a : A) : keeps view (ret a).
Proof. intros st; reflexivity. Qed.

Lemma keeps_call {A} (o : outcome A) : keeps view (call o).
Proof. intros st; reflexivity. Qed.

Lemma keeps_bind {A C} (m : M A) (k : A -> M C) :
  keeps view m -> (forall a, keeps view (k a)) -> keeps view (bind m k).
Proof.
  intros Hm Hk st. unfold bind. specialize (Hm st).
  destruct (m st) as [[a|e] st1]; simpl in *; [|exact Hm].
  rewrite Hk. exact Hm.
Qed.

Lemma keeps_try {A} (body : M A) (handler : exn -> M A) :
  keeps view body -> (forall e, keeps view (handler e)) ->
  keeps view (try body except handler).
Proof.
  intros Hb Hh st. unfold try_except. specialize (Hb st).
  destruct (body st) as [[a|e] st1]; simpl in *; [exact Hb|].
  rewrite Hh. exact Hb.
Qed.

Lemma keeps_for_enumerate {A T} (body : nat -> A -> T -> M T) xs :
  (forall i x acc, keeps view (body i x acc)) ->
  forall start acc, keeps view (for_enumerate start xs body acc).
Proof.
  intros Hbody. induction xs as [|x xs IH]; intros start acc; simpl.
  - apply keeps_ret.
  - apply keeps_bind; [apply Hbody | intros a; apply IH].
Qed.

End Frames.

Lemma keeps_attributes_emit lv msg : keeps attributes (emit lv msg).
Proof. intros st; reflexivity. Qed.

Lemma keeps_tools_emit lv msg : keeps tools (emit lv msg).
Proof. intros st; reflexivity. Qed.

Lemma keeps_tools_set_extraction_mode value :
  keeps tools (set_extraction_mode value).
Proof. intros st; reflexivity. Qed.

Lemma keeps_get_poppler_path {B} (view : state -> B) : keeps view get_poppler_path.
Proof. intros st; reflexivity. Qed.

Lemma keeps_get_tesseract_cmd {B} (view : state -> B) : keeps view get_tesseract_cmd.
Proof. intros st; reflexivity. Qed.

(** Discharges a frame goal by following the structure of the method. *)
Ltac frame_using known :=
  repeat first
    [ known
    | apply keeps_ret | apply keeps_call
    | apply keeps_attributes_emit | apply keeps_tools_emit
    | apply keeps_tools_set_extraction_mode
    | apply keeps_get_poppler_path | apply keeps_get_tesseract_cmd
    | apply keeps_bind | apply keeps_try | apply keeps_for_enumerate
    | progress intros
    | progress cbv zeta
    | match goal with
      | |- keeps _ (match ?x with _ => _ end) => destruct x
      end ].

Ltac frame := frame_using fail.

(** ** Classification *)

Section Classification.

Variable w : World.

Lemma detect_pdf_type_cases pdf_path st :
  result (_detect_pdf_type w pdf_path) st = Return "digital"
  \/ result (_detect_pdf_type w pdf_path) st = Return "scanned".
Proof.
  unfold _detect_pdf_type. run_method.
  destruct (pdfplumber_open w pdf_path) as [pdf|e]; simpl; [|auto].
  destruct (pages pdf) as [[|first_page rest]|e]; simpl; auto.
  destruct (page_extract_text first_page) as [[t|]|e]; simpl; auto.
  destruct (Str.truthy t && (50 <? String.length (Str.strip t))%nat); simpl; auto.
Qed.

(** Classification leaves the configuration and the mode alone. *)
Lemma detect_pdf_type_frame pdf_path st :
  let st' := final (_detect_pdf_type w pdf_path) st in
  tesseract_cmd st' = tesseract_cmd st
  /\ poppler_path st' = poppler_path st
  /\ _extraction_mode st' = _extraction_mode st
  /\ exists detect_log, log st' = log st ++ detect_log.
Proof.
  unfold _detect_pdf_type. run_method.
  assert (Hnil : exists l, log st = log st ++ l)
    by (exists []; now rewrite app_nil_r).
  destruct (pdfplumber_open w pdf_path) as [pdf|e]; simpl; [|eauto 6].
  destruct (pages pdf) as [[|first_page rest]|e]; simpl; eauto 6.
  destruct (page_extract_text first_page) as [[t|]|e]; simpl; eauto 6.
  destruct (Str.truthy t && (50 <? String.length (Str.strip t))%nat); simpl; eauto 6.
Qed.

End Classification.

(** C1. Classification looks at the first page only. It always answers
    ['digital'] or ['scanned'] and never raises: a document without
    pages is scanned; a first page whose text exists and is longer than
    50 characters once stripped makes the document digital; a first page
    without text, or with at most 50 stripped characters, makes it
    scanned; a failure to open the document, to list its pages or to
    read the first page's text makes it scanned. Two documents that
    share their first page are classified alike. *)
Theorem detect_pdf_type_first_page (w : World) (pdf_path : string) (st : state) :
  let classification := result (_detect_pdf_type w pdf_path) st in
  (classification = Return "digital" \/ classification = Return "scanned")
  /\ (forall pdf,
        pdfplumber_open w pdf_path = Return pdf ->
        pages pdf = Return [] ->
        classification = Return "scanned")
  /\ (forall pdf first_page rest t,
        pdfplumber_open w pdf_path = Return pdf ->
        pages pdf = Return (first_page :: rest) ->
        page_extract_text first_page = Return (Some t) ->
        50 < String.length (Str.strip t) ->
        classification = Return "digital")
  /\ (forall pdf first_page rest text,
        pdfplumber_open w pdf_path = Return pdf ->
        pages pdf = Return (first_page :: rest) ->
        page_extract_text first_page = Return text ->
        (text = None
         \/ exists t, text = Some t /\ String.length (Str.strip t) <= 50) ->
        classification = Return "scanned")
  /\ (forall e,
        (pdfplumber_open w pdf_path = Raise e
         \/ (exists pdf, pdfplumber_open w pdf_path = Return pdf
                         /\ pages pdf = Raise e)
         \/ (exists pdf first_page rest,
                pdfplumber_open w pdf_path = Return pdf
                /\ pages pdf = Return (first_page :: rest)
                /\ page_extract_text first_page = Raise e)) ->
        classification = Return "scanned")
  /\ (forall w' pdf_path' st' pdf pdf' first_page rest rest',
        pdfplumber_open w pdf_path = Return pdf ->
        pages pdf = Return (first_page :: rest) ->
        pdfplumber_open w' pdf_path' = Return pdf' ->
        pages pdf' = Return (first_page :: rest') ->
        result (_detect_pdf_type w' pdf_path') st' = classification).
Proof.
  intros classification. split; [apply detect_pdf_type_cases|].
  subst classification. unfold _detect_pdf_type. run_method.
  repeat split.
  - intros pdf -> ->. reflexivity.
  - intros pdf first_page rest t -> -> -> Hlen. simpl.
    assert (Ht : Str.truthy t = true).
    { destruct t; [simpl in Hlen; lia | reflexivity]. }
    rewrite Ht. apply Nat.ltb_lt in Hlen. rewrite Hlen. reflexivity.
  - intros pdf first_page rest text -> -> -> [->|(t & -> & Hlen)]; simpl;
      [reflexivity|].
    apply Nat.ltb_ge in Hlen. rewrite Hlen, andb_false_r. reflexivity.
  - intros e [->|[(pdf & -> & ->)|(pdf & first_page & rest & -> & -> & ->)]];
      reflexivity.
  - intros w' pdf_path' st' pdf pdf' first_page rest rest' -> -> -> ->. simpl.
    destruct (page_extract_text first_page) as [[t|]|e]; simpl; try reflexivity.
    destruct (Str.truthy t && (50 <? String.length (Str.strip t))%nat); reflexivity.
Qed.

Lemma detect_pdf_type_first_page_witness :
  result (_detect_pdf_type Fixtures.world "digital.pdf") Fixtures.fresh
  = Return "digital"
  /\ result (_detect_pdf_type Fixtures.world "scanned.pdf") Fixtures.fresh
     = Return "scanned".
Proof.
  split.
  - destruct (detect_pdf_type_first_page Fixtures.world "digital.pdf" Fixtures.fresh)
      as (_ & _ & Hdigital & _).
    eapply Hdigital; [reflexivity | reflexivity | reflexivity | vm_compute; lia].
  - destruct (detect_pdf_type_first_page Fixtures.world "scanned.pdf" Fixtures.fresh)
      as (_ & _ & _ & Hscanned & _).
    eapply Hscanned; [reflexivity | reflexivity | reflexivity |].
    right. eexists; split; [reflexivity | vm_compute; lia].
Defined.

(** ** The extraction methods only log *)

Section MethodFrames.

Variable w : World.

Lemma keeps_detect_pdf_type pdf_path :
  keeps attributes (_detect_pdf_type w pdf_path).
Proof. unfold _detect_pdf_type, logging_warning. frame. Qed.

Lemma keeps_extract_text_digital pdf_path :
  keeps attributes (_extract_text_digital w pdf_path).
Proof.
  unfold _extract_text_digital, _extract_text_digital_page, logging_info.
  frame.
Qed.

Lemma keeps_extract_text_scanned pdf_path :
  keeps attributes (_extract_text_scanned w pdf_path).
Proof.
  unfold _extract_text_scanned, _extract_text_scanned_page, logging_info,
    logging_error.
  frame.
Qed.

Lemma keeps_extract_tables_digital pdf_path :
  keeps attributes (_extract_tables_digital w pdf_path).
Proof.
  unfold _extract_tables_digital, _extract_tables_digital_page,
    _extract_tables_digital_table, logging_info.
  frame.
Qed.

(** Once the file is found, [extract_text] leaves the path it was
    given in the mode field. *)
Lemma extract_text_mode pdf_path st :
  path_exists w pdf_path = Return true ->
  _extraction_mode (final (extract_text w pdf_path) st) = pdf_path.
Proof.
  intros Hex. unfold extract_text. rewrite Hex, bind_call_return; simpl.
  unfold final, try_except, bind at 1.
  pose proof (keeps_detect_pdf_type pdf_path st) as Hd.
  pose proof (detect_pdf_type_cases w pdf_path st) as Hc. unfold result in Hc.
  destruct (_detect_pdf_type w pdf_path st) as [[pdf_type|e] st1]; simpl in *;
    [|destruct Hc; discriminate].
  set (rest := bind (logging_info _) _).
  assert (Hrest : keeps attributes rest).
  { subst rest. unfold logging_info, logging_error.
    destruct (String.eqb pdf_type "digital");
      frame_using ltac:(first [ apply keeps_extract_text_digital
                              | apply keeps_extract_text_scanned ]). }
  unfold bind at 1. simpl.
  specialize (Hrest (snd (set_extraction_mode pdf_path st1))).
  simpl in Hrest.
  destruct (rest _) as [[text|e] st2]; simpl in *.
  - injection Hrest as _ _ ->. reflexivity.
  - injection Hrest as _ _ ->. reflexivity.
Qed.

(** Once the file is found, [extract_tables] leaves the
    classification in the mode field. *)
Lemma extract_tables_mode pdf_path st :
  path_exists w pdf_path = Return true ->
  Return (_extraction_mode (final (extract_tables w pdf_path) st))
  = result (_detect_pdf_type w pdf_path) st.
Proof.
  intros Hex. unfold extract_tables. rewrite Hex, bind_call_return; simpl.
  unfold final, result, try_except, bind at 1.
  pose proof (detect_pdf_type_cases w pdf_path st) as Hc. unfold result in Hc.
  destruct (_detect_pdf_type w pdf_path st) as [[pdf_type|e] st1]; simpl in *;
    [|destruct Hc; discriminate].
  set (rest := bind (logging_info _) _).
  assert (Hrest : keeps attributes rest).
  { subst rest. unfold logging_info, logging_warning.
    destruct (String.eqb pdf_type "digital");
      frame_using ltac:(apply keeps_extract_tables_digital). }
  unfold bind at 1. simpl.
  specialize (Hrest (snd (set_extraction_mode pdf_type st1))).
  simpl in Hrest.
  destruct (rest _) as [[tables|e] st2]; simpl in *.
  - injection Hrest as _ _ ->. reflexivity.
  - injection Hrest as _ _ ->. reflexivity.
Qed.

End MethodFrames.


(** ** The public methods never raise *)

(** Once the existence check has answered, [extract_text] returns a
    string whatever happens next. *)
Lemma extract_text_returns (w : World) (pdf_path : string) (st : state)
    (found : bool) :
  path_exists w pdf_path = Return found ->
  exists text, result (extract_text w pdf_path) st = Return text.
Proof.
  intros Hfound. unfold extract_text. rewrite Hfound, bind_call_return.
  destruct found; simpl.
  - apply try_except_returns. intros e st1. exists "". reflexivity.
  - exists "". reflexivity.
Qed.

(** Once the existence check has answered, [extract_tables] returns a
    list whatever happens next. *)
Lemma extract_tables_returns (w : World) (pdf_path : string) (st : state)
    (found : bool) :
  path_exists w pdf_path = Return found ->
  exists tables, result (extract_tables w pdf_path) st = Return tables.
Proof.
  intros Hfound. unfold extract_tables. rewrite Hfound, bind_call_return.
  destruct found; simpl.
  - apply try_except_returns. intros e st1. exists []. reflexivity.
  - exists []. reflexivity.
Qed.







(** ** Tables of scanned documents *)

(** C4. For an existing document that classifies as scanned,
    [extract_tables] returns the empty list, having logged its three
    warnings after the processing record, and does not raise. *)
Theorem scanned_document_has_no_tables (w : World) (pdf_path : string) (st : state) :
  path_exists w pdf_path = Return true ->
  result (_detect_pdf_type w pdf_path) st = Return "scanned" ->
  result (extract_tables w pdf_path) st = Return []
  /\ exists detect_log,
       log (final (extract_tables w pdf_path) st)
       = log st ++ detect_log
         ++ [ (INFO, ProcessingTables "scanned" pdf_path);
              (WARNING, TableWarning);
              (WARNING, ScannedDetected);
              (WARNING, ReturnEmptyList) ].
Proof.
  intros Hex Hscanned.
  assert (Hrun : extract_tables w pdf_path st
                 = (Return [],
                    with_log
                      (snd (set_extraction_mode "scanned"
                              (final (_detect_pdf_type w pdf_path) st)))
                      [ (INFO, ProcessingTables "scanned" pdf_path);
                        (WARNING, TableWarning);
                        (WARNING, ScannedDetected);
                        (WARNING, ReturnEmptyList) ])).
  { unfold extract_tables. rewrite Hex, bind_call_return; simpl.
    unfold result, final in *. unfold try_except, bind at 1.
    destruct (_detect_pdf_type w pdf_path st) as [o st1]; simpl in *.
    subst o. unfold with_log. run_method.
    repeat rewrite <- app_assoc. reflexivity. }
  destruct (detect_pdf_type_frame w pdf_path st) as (_ & _ & _ & detect_log & Hlog).
  unfold result, final in *. rewrite Hrun; simpl. split; [reflexivity|].
  exists detect_log. rewrite Hlog. rewrite <- app_assoc. reflexivity.
Qed.

Lemma scanned_document_has_no_tables_witness :
  result (extract_tables Fixtures.world "scanned.pdf") Fixtures.fresh = Return [].
Proof.
  apply (scanned_document_has_no_tables Fixtures.world "scanned.pdf" Fixtures.fresh);
    reflexivity.
Defined.

(** ** The mode field *)

(** C5. On the fixture ["scanned.pdf"], which exists and classifies as
    scanned, the mode is ['unknown'] after construction and ['scanned']
    after [extract_tables], but after [extract_text] it holds the path
    that was passed in, which is none of ['digital'], ['scanned'] and
    ['unknown']. *)
Theorem extract_text_stores_path_as_mode :
  let after_text := final (extract_text Fixtures.world "scanned.pdf") Fixtures.fresh in
  let after_tables := final (extract_tables Fixtures.world "scanned.pdf") Fixtures.fresh in
  _extraction_mode Fixtures.fresh = "unknown"
  /\ result (_detect_pdf_type Fixtures.world "scanned.pdf") Fixtures.fresh
     = Return "scanned"
  /\ _extraction_mode after_tables = "scanned"
  /\ _extraction_mode after_text = "scanned.pdf"
  /\ result get_extraction_mode after_text = Return "scanned.pdf"
  /\ ~ In (_extraction_mode after_text) ["digital"; "scanned"; "unknown"].
Proof.
  repeat split; try reflexivity.
  vm_compute. intros [H|[H|[H|[]]]]; discriminate.
Qed.


(** ** The two text paths *)

Section TextPaths.

Variable w : World.

Lemma extract_text_digital_page_ok page_num page text all_text st :
  page_extract_text page = Return text ->
  exists st',
    _extract_text_digital_page page_num page all_text st
    = (Return (all_text ++ kept_texts [text]), st').
Proof.
  intros Htext. unfold _extract_text_digital_page. run_method. rewrite Htext.
  destruct text as [t|]; simpl.
  - destruct (Str.truthy t); simpl; [|rewrite app_nil_r]; eauto.
  - rewrite app_nil_r; eauto.
Qed.

Lemma digital_loop_collects ps texts :
  pages_read ps texts ->
  forall start all_text st,
    result (for_enumerate start ps _extract_text_digital_page all_text) st
    = Return (all_text ++ kept_texts texts).
Proof.
  induction 1 as [|page text ps texts Hpage _ IH]; intros start all_text st.
  - simpl. rewrite app_nil_r. reflexivity.
  - simpl. unfold result, bind in *.
    destruct (extract_text_digital_page_ok start page text all_text st Hpage)
      as [st1 ->].
    rewrite IH. unfold kept_texts; simpl.
    rewrite app_nil_r, <- app_assoc. reflexivity.
Qed.

Lemma extract_text_digital_joins pdf_path st pdf ps texts :
  pdfplumber_open w pdf_path = Return pdf ->
  pages pdf = Return ps ->
  pages_read ps texts ->
  result (_extract_text_digital w pdf_path) st
  = Return (Str.join Str.nl (kept_texts texts)).
Proof.
  intros Hopen Hpages Hread. unfold _extract_text_digital.
  pose proof (digital_loop_collects ps texts Hread 0 [] st) as Hloop.
  unfold result, bind, call, ret in *. rewrite Hopen, Hpages.
  destruct (for_enumerate 0 ps _extract_text_digital_page [] st) as [o st1].
  simpl in *. subst o. reflexivity.
Qed.

Lemma extract_text_scanned_page_ok page_num image text all_text st :
  recognized w (tesseract_cmd st) image text ->
  exists st1,
    _extract_text_scanned_page w page_num image all_text st
    = (Return (all_text ++ [clean_ocr_text text]), st1)
    /\ tesseract_cmd st1 = tesseract_cmd st.
Proof.
  intros (img_cv & gray & thresh & Ha & Hg & Ht & Hs).
  unfold _extract_text_scanned_page. run_method.
  rewrite Ha, Hg, Ht, Hs. eexists; split; reflexivity.
Qed.

Lemma extract_text_scanned_page_fails page_num image all_text st :
  recognition_fails w (tesseract_cmd st) image ->
  exists e, _extract_text_scanned_page w page_num image all_text st = (Raise e, st).
Proof.
  unfold _extract_text_scanned_page. run_method.
  intros [(e & Ha)|[(img_cv & e & Ha & Hg)|[(img_cv & gray & e & Ha & Hg & Ht)
         |(img_cv & gray & thresh & e & Ha & Hg & Ht & Hs)]]];
    rewrite Ha; try rewrite Hg; try rewrite Ht; try rewrite Hs; eauto.
Qed.

Lemma extract_text_scanned_page_tools page_num image all_text :
  keeps tools (_extract_text_scanned_page w page_num image all_text).
Proof. unfold _extract_text_scanned_page, logging_info. frame. Qed.

Lemma scanned_loop_collects cmd images raw :
  Forall2 (recognized w cmd) images raw ->
  forall start all_text st,
    tesseract_cmd st = cmd ->
    result (for_enumerate start images (_extract_text_scanned_page w) all_text) st
    = Return (all_text ++ map clean_ocr_text raw).
Proof.
  induction 1 as [|image text images raw Himage _ IH];
    intros start all_text st Hcmd.
  - simpl. rewrite app_nil_r. reflexivity.
  - simpl. unfold result, bind in *. subst cmd.
    destruct (extract_text_scanned_page_ok start image text all_text st Himage)
      as (st1 & -> & Hcmd1).
    rewrite (IH _ _ _ Hcmd1). rewrite <- app_assoc. reflexivity.
Qed.

Lemma scanned_loop_raises cmd images :
  Exists (recognition_fails w cmd) images ->
  forall start all_text st,
    tesseract_cmd st = cmd ->
    exists e,
      result (for_enumerate start images (_extract_text_scanned_page w) all_text) st
      = Raise e.
Proof.
  induction 1 as [image images Hfails|image images _ IH];
    intros start all_text st Hcmd; simpl; unfold result, bind in *.
  - subst cmd.
    destruct (extract_text_scanned_page_fails start image all_text st Hfails)
      as [e ->].
    exists e; reflexivity.
  - pose proof (extract_text_scanned_page_tools start image all_text st) as Htools.
    destruct (_extract_text_scanned_page w start image all_text st)
      as [[all_text1|e] st1] eqn:Hstep; simpl in *.
    + apply IH. injection Htools as -> _. exact Hcmd.
    + exists e; reflexivity.
Qed.

Lemma extract_text_scanned_joins pdf_path st images raw :
  convert_from_path w pdf_path 300 (poppler_path st) = Return images ->
  Forall2 (recognized w (tesseract_cmd st)) images raw ->
  result (_extract_text_scanned w pdf_path) st
  = Return (Str.join (Str.nl ++ Str.nl)%string (map clean_ocr_text raw)).
Proof.
  intros Hconvert Hraw. unfold _extract_text_scanned.
  pose proof (scanned_loop_collects _ images raw Hraw 0 [] st eq_refl) as Hloop.
  unfold result, try_except, bind, call, ret, get_poppler_path in *.
  rewrite Hconvert.
  destruct (for_enumerate 0 images (_extract_text_scanned_page w) [] st) as [o st1].
  simpl in *. subst o. reflexivity.
Qed.

Lemma extract_text_scanned_fallback pdf_path st :
  ocr_fails w st pdf_path ->
  result (_extract_text_scanned w pdf_path) st = Return OCR_FALLBACK.
Proof.
  intros [(e & Hconvert)|(images & Hconvert & Hfails)]; unfold _extract_text_scanned.
  - unfold result, try_except, bind, call, get_poppler_path.
    rewrite Hconvert. reflexivity.
  - destruct (scanned_loop_raises _ images Hfails 0 [] st eq_refl) as [e Hloop].
    unfold result, try_except, bind, call, ret, get_poppler_path in *.
    rewrite Hconvert.
    destruct (for_enumerate 0 images (_extract_text_scanned_page w) [] st) as [o st1].
    simpl in *. subst o. reflexivity.
Qed.

(** On the scanned branch, [extract_text] answers what the scanned
    path answers, run in a state with the same tool configuration. *)
Lemma extract_text_scanned_branch pdf_path st :
  path_exists w pdf_path = Return true ->
  result (_detect_pdf_type w pdf_path) st = Return "scanned" ->
  exists st2,
    tools st2 = tools st
    /\ forall text,
         result (_extract_text_scanned w pdf_path) st2 = Return text ->
         result (extract_text w pdf_path) st = Return text.
Proof.
  intros Hex Hscanned.
  pose proof (keeps_detect_pdf_type w pdf_path st) as Hkeep.
  unfold result in Hscanned.
  destruct (_detect_pdf_type w pdf_path st) as [o st1] eqn:Hdetect.
  simpl in *. subst o.
  exists (snd (logging_info (ProcessingText "scanned" pdf_path)
                 (snd (set_extraction_mode pdf_path st1)))).
  split.
  - unfold tools; simpl. injection Hkeep as -> -> _. reflexivity.
  - intros text Htext. unfold extract_text. rewrite Hex, bind_call_return; simpl.
    unfold result, try_except, bind at 1. rewrite Hdetect.
    unfold bind at 1; simpl. unfold bind at 1; simpl.
    unfold bind at 1. unfold result in Htext. simpl in Htext.
    destruct (_extract_text_scanned w pdf_path _) as [o st3]; simpl in *.
    subst o. reflexivity.
Qed.

End TextPaths.

(** C3. On the scanned path of an existing document, when rasterization
    raises or recognition raises on some page, [extract_text] returns
    exactly the sentinel ["OCR Functionaliy Not Available On This
    Platform"]: no transcript of the pages before the failure, and no
    exception. *)
Theorem ocr_failure_yields_sentinel (w : World) (pdf_path : string) (st : state) :
  path_exists w pdf_path = Return true ->
  result (_detect_pdf_type w pdf_path) st = Return "scanned" ->
  ocr_fails w st pdf_path ->
  result (extract_text w pdf_path) st
  = Return "OCR Functionaliy Not Available On This Platform".
Proof.
  intros Hex Hscanned Hfails.
  destruct (extract_text_scanned_branch w pdf_path st Hex Hscanned)
    as (st2 & Htools & Hbranch).
  apply Hbranch. apply extract_text_scanned_fallback.
  unfold ocr_fails in *. injection Htools as -> ->. exact Hfails.
Qed.

Lemma ocr_failure_yields_sentinel_witness :
  result (extract_text Fixtures.world "damaged.pdf") Fixtures.fresh
  = Return "OCR Functionaliy Not Available On This Platform".
Proof.
  apply (ocr_failure_yields_sentinel Fixtures.world "damaged.pdf" Fixtures.fresh);
    [reflexivity | reflexivity |].
  right. eexists; split; [reflexivity|].
  apply Exists_cons_tl, Exists_cons_hd.
  do 3 right. exists "?", "?", "?", "TesseractError".
  repeat split; reflexivity.
Defined.

(** C6. The digital text path joins the texts of the pages that have
    one with a single newline, leaving out the pages that yield none;
    the scanned text path joins the cleaned recognised texts of the
    pages with two newlines (a blank line). For two pages with texts
    [a] and [b] the results are [a\nb] and [a\n\nb]. *)
Theorem text_paths_join_pages (w : World) (st : state) :
  (forall pdf_path pdf ps texts,
      pdfplumber_open w pdf_path = Return pdf ->
      pages pdf = Return ps ->
      pages_read ps texts ->
      result (_extract_text_digital w pdf_path) st
      = Return (Str.join Str.nl (kept_texts texts)))
  /\ (forall pdf_path pdf page1 page2 a b,
        pdfplumber_open w pdf_path = Return pdf ->
        pages pdf = Return [page1; page2] ->
        page_extract_text page1 = Return (Some a) -> a <> "" ->
        page_extract_text page2 = Return (Some b) -> b <> "" ->
        result (_extract_text_digital w pdf_path) st
        = Return (a ++ Str.nl ++ b)%string)
  /\ (forall pdf_path images raw,
        convert_from_path w pdf_path 300 (poppler_path st) = Return images ->
        Forall2 (recognized w (tesseract_cmd st)) images raw ->
        result (_extract_text_scanned w pdf_path) st
        = Return (Str.join (Str.nl ++ Str.nl)%string (map clean_ocr_text raw)))
  /\ (forall pdf_path image1 image2 a b,
        convert_from_path w pdf_path 300 (poppler_path st)
        = Return [image1; image2] ->
        recognized w (tesseract_cmd st) image1 a ->
        recognized w (tesseract_cmd st) image2 b ->
        result (_extract_text_scanned w pdf_path) st
        = Return (clean_ocr_text a ++ Str.nl ++ Str.nl ++ clean_ocr_text b)%string).
Proof.
  repeat split.
  - intros pdf_path pdf ps texts. apply extract_text_digital_joins.
  - intros pdf_path pdf page1 page2 a b Hopen Hpages Ha Hane Hb Hbne.
    rewrite (extract_text_digital_joins w pdf_path st pdf [page1; page2]
               [Some a; Some b] Hopen Hpages).
    + destruct a; [contradiction|]. destruct b; [contradiction|]. reflexivity.
    + repeat constructor; assumption.
  - intros pdf_path images raw. apply extract_text_scanned_joins.
  - intros pdf_path image1 image2 a b Hconvert Ha Hb.
    rewrite (extract_text_scanned_joins w pdf_path st [image1; image2] [a; b] Hconvert).
    + reflexivity.
    + repeat constructor; assumption.
Qed.

Lemma text_paths_join_pages_witness :
  result (_extract_text_digital Fixtures.world "digital.pdf") Fixtures.fresh
  = Return (Fixtures.page_one ++ Str.nl ++ Fixtures.page_two)%string
  /\ result (_extract_text_scanned Fixtures.world "scanned.pdf") Fixtures.fresh
     = Return ("Hello" ++ Str.nl ++ "world" ++ Str.nl ++ Str.nl ++ ""
               ++ Str.nl ++ Str.nl ++ "Bye")%string.
Proof.
  destruct (text_paths_join_pages Fixtures.world Fixtures.fresh)
    as (Hdigital & _ & Hscanned & _).
  split.
  - refine (eq_trans
              (Hdigital "digital.pdf" Fixtures.digital_pdf _
                 [Some Fixtures.page_one; None; Some Fixtures.page_two]
                 eq_refl eq_refl _)
              eq_refl).
    repeat constructor.
  - refine (eq_trans
              (Hscanned "scanned.pdf" _
                 [ String " " ("Hello " ++ Str.nl ++ "  " ++ Str.nl ++ " world")%string;
                   "   "; "Bye" ]
                 eq_refl _)
              eq_refl).
    repeat constructor; eexists _, _, _; repeat split; reflexivity.
Defined.

(** ** Which pages contribute a segment *)

Lemma kept_texts_length texts :
  List.length (kept_texts texts) = List.length (filter text_truthy texts).
Proof.
  induction texts as [|text texts IH]; [reflexivity|].
  destruct text as [t|]; simpl; [|exact IH].
  destruct (Str.truthy t); simpl; [f_equal|]; exact IH.
Qed.

Lemma kept_texts_nonempty texts : Forall (fun t => t <> "") (kept_texts texts).
Proof.
  induction texts as [|text texts IH]; [constructor|].
  destruct text as [t|]; simpl; [|exact IH].
  destruct t; simpl; [exact IH|]. constructor; [discriminate | exact IH].
Qed.

(** C10. In the scanned text path every page image contributes one
    segment to the join, the [i]-th segment being the cleaned text of
    the [i]-th page, also when that text is empty: the empty segment
    stays between its [\n\n] separators. In the digital text path the
    segments are the non-empty page texts only, one per page that has
    text. *)
Theorem scanned_pages_all_contribute (w : World) (pdf_path : string) (st : state) :
  (forall images raw,
      convert_from_path w pdf_path 300 (poppler_path st) = Return images ->
      Forall2 (recognized w (tesseract_cmd st)) images raw ->
      exists segments,
        result (_extract_text_scanned w pdf_path) st
        = Return (Str.join (Str.nl ++ Str.nl)%string segments)
        /\ List.length segments = List.length images
        /\ (forall i text,
              nth_error raw i = Some text ->
              nth_error segments i = Some (clean_ocr_text text))
        /\ (forall i text,
              nth_error raw i = Some text ->
              clean_ocr_text text = "" ->
              nth_error segments i = Some ""))
  /\ (forall pdf ps texts,
        pdfplumber_open w pdf_path = Return pdf ->
        pages pdf = Return ps ->
        pages_read ps texts ->
        exists segments,
          result (_extract_text_digital w pdf_path) st
          = Return (Str.join Str.nl segments)
          /\ Forall (fun segment => segment <> "") segments
          /\ List.length segments = List.length (filter text_truthy texts)).
Proof.
  split.
  - intros images raw Hconvert Hraw. exists (map clean_ocr_text raw).
    assert (Hnth : forall i text,
               nth_error raw i = Some text ->
               nth_error (map clean_ocr_text raw) i = Some (clean_ocr_text text)).
    { intros i text Hi. rewrite nth_error_map, Hi. reflexivity. }
    repeat split.
    + apply extract_text_scanned_joins with (images := images); assumption.
    + rewrite length_map. symmetry. exact (Forall2_length Hraw).
    + exact Hnth.
    + intros i text Hi Hempty. rewrite <- Hempty. apply Hnth, Hi.
  - intros pdf ps texts Hopen Hpages Hread. exists (kept_texts texts).
    repeat split.
    + apply extract_text_digital_joins with (pdf := pdf) (ps := ps); assumption.
    + apply kept_texts_nonempty.
    + apply kept_texts_length.
Qed.

Lemma scanned_pages_all_contribute_witness :
  (exists segments,
     result (_extract_text_scanned Fixtures.world "scanned.pdf") Fixtures.fresh
     = Return (Str.join (Str.nl ++ Str.nl)%string segments)
     /\ List.length segments = 3
     /\ nth_error segments 1 = Some "")
  /\ (exists segments,
        result (_extract_text_digital Fixtures.world "digital.pdf") Fixtures.fresh
        = Return (Str.join Str.nl segments)
        /\ List.length segments = 2).
Proof.
  destruct (scanned_pages_all_contribute Fixtures.world "scanned.pdf" Fixtures.fresh)
    as [Hscanned _].
  destruct (scanned_pages_all_contribute Fixtures.world "digital.pdf" Fixtures.fresh)
    as [_ Hdigital].
  split.
  - destruct (Hscanned
                [ String " " ("Hello " ++ Str.nl ++ "  " ++ Str.nl ++ " world")%string;
                  "   "; "Bye" ]
                [ String " " ("Hello " ++ Str.nl ++ "  " ++ Str.nl ++ " world")%string;
                  "   "; "Bye" ])
      as (segments & Hrun & Hlen & _ & Hblank);
      [ reflexivity
      | repeat constructor; eexists _, _, _; repeat split; reflexivity
      | ].
    exists segments. repeat split; [exact Hrun | exact Hlen |].
    apply (Hblank 1 "   "); reflexivity.
  - destruct (Hdigital Fixtures.digital_pdf _
                [Some Fixtures.page_one; None; Some Fixtures.page_two]
                eq_refl eq_refl ltac:(repeat constructor))
      as (segments & Hrun & _ & Hlen).
    exists segments. split; [exact Hrun | exact Hlen].
Defined.

(** ** Table cleaning *)

Lemma clean_table_from acc (table : Candidate) :
  fold_left
    (fun cleaned_table row =>
       match row with
       | Some (c :: cs) => cleaned_table ++ [map clean_cell (c :: cs)]
       | _ => cleaned_table
       end)
    table acc
  = acc ++ map (map clean_cell) (kept_rows table).
Proof.
  revert acc. induction table as [|row table IH]; intros acc; simpl.
  - rewrite app_nil_r. reflexivity.
  - rewrite IH. destruct row as [[|c cs]|]; simpl; try reflexivity.
    rewrite <- app_assoc. reflexivity.
Qed.

(** Cleaning a candidate keeps its non-null, non-empty rows, in order,
    and maps [clean_cell] over each. *)
Lemma clean_table_kept_rows table :
  clean_table table = map (map clean_cell) (kept_rows table).
Proof. unfold clean_table. rewrite clean_table_from. reflexivity. Qed.

Lemma kept_rows_app pre post : kept_rows (pre ++ post) = kept_rows pre ++ kept_rows post.
Proof. unfold kept_rows. apply flat_map_app. Qed.

Lemma kept_rows_length table :
  List.length (kept_rows table) = List.length (filter row_truthy table).
Proof.
  induction table as [|row table IH]; [reflexivity|].
  destruct row as [[|c cs]|]; simpl; try exact IH.
  f_equal; exact IH.
Qed.

Lemma kept_rows_source table cells :
  In cells (kept_rows table) -> cells <> [] /\ In (Some cells) table.
Proof.
  induction table as [|row table IH]; [intros []|].
  destruct row as [[|c cs]|]; simpl; try (intros Hin; destruct (IH Hin); now auto).
  intros [<-|Hin]; [split; [discriminate | left; reflexivity]|].
  destruct (IH Hin); auto.
Qed.

Lemma clean_cell_stripped cell : no_surrounding_whitespace (clean_cell cell).
Proof.
  destruct cell as [c|]; simpl.
  - destruct (Str.truthy c).
    + apply StrFacts.strip_no_surrounding_whitespace.
    + apply StrFacts.empty_no_surrounding_whitespace.
  - apply StrFacts.empty_no_surrounding_whitespace.
Qed.

Lemma clean_cell_some c : clean_cell (Some c) = Str.strip c.
Proof.
  simpl. destruct (Str.truthy c) eqn:Hc; [reflexivity|].
  apply StrFacts.truthy_false in Hc. subst c. reflexivity.
Qed.

(** A row of cells that are all [None] is not a null row: it is kept,
    as a row of empty strings. *)
Example row_of_null_cells_is_kept :
  clean_table [Some [None; None]] = [[""; ""]].
Proof. reflexivity. Qed.

Section Tables.

Variable w : World.

Lemma extract_tables_digital_table_step pdf_path page_num table_num candidate
    all_tables st all_tables1 st1 :
  candidate_of w pdf_path candidate ->
  Forall (cleaned_candidate w pdf_path) all_tables ->
  _extract_tables_digital_table page_num table_num candidate all_tables st
  = (Return all_tables1, st1) ->
  Forall (cleaned_candidate w pdf_path) all_tables1.
Proof.
  intros Hcand Hall. unfold _extract_tables_digital_table.
  destruct (clean_table candidate) as [|row rows] eqn:Hclean; run_method.
  - intros H; injection H as <- _. exact Hall.
  - intros H; injection H as <- _. apply Forall_app. split; [exact Hall|].
    constructor; [|constructor]. split; [discriminate|].
    exists candidate. split; [exact Hcand | symmetry; exact Hclean].
Qed.

Lemma extract_tables_digital_provenance pdf_path st tables st1 :
  _extract_tables_digital w pdf_path st = (Return tables, st1) ->
  Forall (cleaned_candidate w pdf_path) tables.
Proof.
  unfold _extract_tables_digital. unfold bind at 1, call at 1.
  destruct (pdfplumber_open w pdf_path) as [pdf|e] eqn:Hopen; [|discriminate].
  unfold bind at 1, call at 1.
  destruct (pages pdf) as [ps|e] eqn:Hpages; [|discriminate].
  apply for_enumerate_invariant; [|constructor].
  intros page_num page all_tables s all_tables1 s1 Hpage Hall.
  unfold _extract_tables_digital_page. unfold bind at 1, call at 1.
  destruct (page_extract_tables page) as [candidates|e] eqn:Htables;
    [|discriminate].
  apply for_enumerate_invariant; [|exact Hall].
  intros table_num candidate acc s2 acc1 s3 Hcandidate.
  apply extract_tables_digital_table_step.
  exists pdf, ps, page, candidates. auto.
Qed.

Lemma extract_tables_provenance pdf_path st tables :
  result (extract_tables w pdf_path) st = Return tables ->
  Forall (cleaned_candidate w pdf_path) tables.
Proof.
  unfold extract_tables.
  destruct (path_exists w pdf_path) as [[|]|e]; [| |discriminate];
    rewrite bind_call_return; simpl;
    [|intros H; injection H as <-; constructor].
  unfold result, try_except, bind at 1.
  destruct (_detect_pdf_type w pdf_path st) as [[pdf_type|e] st1]; simpl;
    [|intros H; injection H as <-; constructor].
  unfold bind at 1; simpl. unfold bind at 1; simpl.
  destruct (String.eqb pdf_type "digital").
  - unfold bind at 1.
    destruct (_extract_tables_digital w pdf_path _) as [[found|e] st2] eqn:Hrun;
      simpl.
    + intros H; injection H as <-.
      exact (extract_tables_digital_provenance _ _ _ _ Hrun).
    + intros H; injection H as <-; constructor.
  - simpl. intros H; injection H as <-; constructor.
Qed.

End Tables.

(** C8. Every table that [extract_tables] returns has at least one
    row. Each of its rows is the image of a non-empty row of cells of a
    candidate the document reports: it has as many cells, a [None]
    cell gives the empty string at the same position, a string cell
    gives that string stripped at the same position; so every returned
    cell is a string (never [None]) without surrounding whitespace. *)
Theorem extracted_tables_are_clean (w : World) (pdf_path : string) (st : state)
    (tables : list Table) :
  result (extract_tables w pdf_path) st = Return tables ->
  Forall
    (fun table : Table =>
       table <> []
       /\ Forall (fun row => Forall no_surrounding_whitespace row) table
       /\ exists candidate,
            candidate_of w pdf_path candidate
            /\ Forall2
                 (fun (row : list string) (cells : list Cell) =>
                    List.length row = List.length cells
                    /\ (forall i,
                          nth_error cells i = Some None ->
                          nth_error row i = Some "")
                    /\ (forall i c,
                          nth_error cells i = Some (Some c) ->
                          nth_error row i = Some (Str.strip c)))
                 table (kept_rows candidate))
    tables.
Proof.
  intros Hrun. apply extract_tables_provenance in Hrun.
  eapply Forall_impl; [|exact Hrun].
  intros table (Hrows & candidate & Hcand & ->). split; [exact Hrows|].
  rewrite clean_table_kept_rows. split.
  - apply Forall_forall. intros row Hrow.
    apply in_map_iff in Hrow as (cells & <- & _).
    apply Forall_forall. intros cell Hcell.
    apply in_map_iff in Hcell as (c & <- & _). apply clean_cell_stripped.
  - exists candidate. split; [exact Hcand|].
    induction (kept_rows candidate) as [|cells rest IH]; simpl; constructor;
      [|exact IH].
    split; [apply length_map|]. split.
    + intros i Hi. rewrite nth_error_map, Hi. reflexivity.
    + intros i c Hi. rewrite nth_error_map, Hi.
      change (Some (clean_cell (Some c)) = Some (Str.strip c)).
      rewrite clean_cell_some. reflexivity.
Qed.

Lemma extracted_tables_are_clean_witness :
  result (extract_tables Fixtures.world "digital.pdf") Fixtures.fresh
  = Return [[["Item"; "Qty"; ""]; [""; "2"; "4.50"]]; [["x"]]]
  /\ Forall (fun table : Table =>
               table <> []
               /\ Forall (fun row => Forall no_surrounding_whitespace row) table)
       [[["Item"; "Qty"; ""]; [""; "2"; "4.50"]]; [["x"]]].
Proof.
  assert (Hrun : result (extract_tables Fixtures.world "digital.pdf") Fixtures.fresh
                 = Return [[["Item"; "Qty"; ""]; [""; "2"; "4.50"]]; [["x"]]])
    by reflexivity.
  split; [exact Hrun|].
  eapply Forall_impl;
    [|exact (extracted_tables_are_clean Fixtures.world "digital.pdf" Fixtures.fresh
               _ Hrun)].
  intros table (Hrows & Hcells & _). split; assumption.
Defined.

(** C9. A candidate row that is [None], or that has no cells, leaves
    nothing in the output: every table that [extract_tables] returns
    consists of the cleaned images of the non-null, non-empty rows of
    one candidate, in order and one for one, and cleaning a candidate
    gives the same table with or without such a row in it. *)
Theorem null_rows_are_dropped (w : World) (pdf_path : string) (st : state)
    (tables : list Table) :
  result (extract_tables w pdf_path) st = Return tables ->
  Forall
    (fun table : Table =>
       exists candidate,
         candidate_of w pdf_path candidate
         /\ table = clean_table candidate
         /\ List.length table = List.length (filter row_truthy candidate)
         /\ Forall2
              (fun (row : list string) (cells : list Cell) =>
                 cells <> [] /\ In (Some cells) candidate
                 /\ row = map clean_cell cells)
              table (kept_rows candidate))
    tables
  /\ (forall pre post : Candidate,
        clean_table (pre ++ None :: post) = clean_table (pre ++ post))
  /\ (forall pre post : Candidate,
        clean_table (pre ++ Some [] :: post) = clean_table (pre ++ post)).
Proof.
  intros Hrun. split; [|split].
  - apply extract_tables_provenance in Hrun.
    eapply Forall_impl; [|exact Hrun].
    intros table (_ & candidate & Hcand & ->). exists candidate.
    split; [exact Hcand|]. split; [reflexivity|].
    rewrite clean_table_kept_rows, length_map. split; [apply kept_rows_length|].
    pose proof (kept_rows_source candidate) as Hsrc.
    induction (kept_rows candidate) as [|cells rest IH]; simpl; constructor.
    + destruct (Hsrc cells (or_introl eq_refl)). auto.
    + apply IH. intros c Hc. apply Hsrc. right; exact Hc.
  - intros pre post. rewrite !clean_table_kept_rows, !kept_rows_app. reflexivity.
  - intros pre post. rewrite !clean_table_kept_rows, !kept_rows_app. reflexivity.
Qed.

Lemma null_rows_are_dropped_witness :
  result (extract_tables Fixtures.world "digital.pdf") Fixtures.fresh
  = Return [[["Item"; "Qty"; ""]; [""; "2"; "4.50"]]; [["x"]]]
  /\ clean_table ([Some [Some "a"]] ++ None :: [Some [Some "b"]])
     = clean_table ([Some [Some "a"]] ++ [Some [Some "b"]]).
Proof.
  assert (Hrun : result (extract_tables Fixtures.world "digital.pdf") Fixtures.fresh
                 = Return [[["Item"; "Qty"; ""]; [""; "2"; "4.50"]]; [["x"]]])
    by reflexivity.
  split; [exact Hrun|].
  destruct (null_rows_are_dropped Fixtures.world "digital.pdf" Fixtures.fresh _ Hrun)
    as (_ & Hnull & _).
  apply Hnull.
Defined.

(** ** Sheet names *)

Section SheetNames.

Import DataExporter.

Lemma re_sub_forbidden_chars s :
  Forall (fun c => forbidden c = false) (chars (re_sub_forbidden s)).
Proof.
  induction s as [|c s IH]; simpl; [constructor|].
  destruct (forbidden c) eqn:Hc; [exact IH|]. constructor; assumption.
Qed.

Lemma re_sub_forbidden_fixed s :
  Forall (fun c => forbidden c = false) (chars s) -> re_sub_forbidden s = s.
Proof.
  induction s as [|c s IH]; simpl; [reflexivity|].
  intros H. inversion H as [|? ? Hc Hs]; subst.
  rewrite Hc, (IH Hs). reflexivity.
Qed.

Lemma re_sub_forbidden_app a b :
  re_sub_forbidden (a ++ b)%string = (re_sub_forbidden a ++ re_sub_forbidden b)%string.
Proof.
  induction a as [|c a IH]; simpl; [reflexivity|].
  rewrite IH. destruct (forbidden c); reflexivity.
Qed.

Lemma prefix_chars (P : ascii -> Prop) n : forall s,
  Forall P (chars s) -> Forall P (chars (String.substring 0 n s)).
Proof.
  induction n as [|n IH]; intros [|c s] H; simpl; try constructor.
  - inversion H; assumption.
  - apply IH. inversion H; assumption.
Qed.

Lemma prefix_length n : forall s, String.length (String.substring 0 n s) <= n.
Proof.
  induction n as [|n IH]; intros [|c s]; simpl; try lia.
  specialize (IH s). lia.
Qed.

Lemma prefix_all n : forall s, String.length s <= n -> String.substring 0 n s = s.
Proof.
  induction n as [|n IH]; intros [|c s]; simpl; intros H; try reflexivity; try lia.
  rewrite IH; [reflexivity | lia].
Qed.

Lemma slice_to_chars (P : ascii -> Prop) s stop :
  Forall P (chars s) -> Forall P (chars (slice_to s stop)).
Proof. unfold slice_to. destruct (0 <=? stop)%Z; apply prefix_chars. Qed.

Lemma clean_sheet_name_chars sheet_name max_length :
  Forall (fun c => forbidden c = false)
    (chars (_clean_sheet_name sheet_name max_length)).
Proof.
  unfold _clean_sheet_name.
  set (cleaned := if (max_length <? _)%Z then _ else _).
  assert (Hcleaned : Forall (fun c => forbidden c = false) (chars cleaned)).
  { subst cleaned. destruct (max_length <? _)%Z;
      [apply slice_to_chars|]; apply re_sub_forbidden_chars. }
  destruct (negb (Str.truthy (Str.strip cleaned))); [|exact Hcleaned].
  repeat constructor.
Qed.

Lemma clean_sheet_name_not_blank sheet_name max_length :
  Str.strip (_clean_sheet_name sheet_name max_length) <> "".
Proof.
  unfold _clean_sheet_name.
  set (cleaned := if (max_length <? _)%Z then _ else _).
  destruct (Str.strip cleaned) eqn:Hstrip; simpl; [discriminate|].
  rewrite Hstrip. discriminate.
Qed.

Lemma clean_sheet_name_bound sheet_name max_length :
  (0 <= max_length)%Z ->
  (Z.of_nat (String.length (_clean_sheet_name sheet_name max_length))
   <= Z.max max_length 6)%Z.
Proof.
  intros Hmax. unfold _clean_sheet_name.
  set (cleaned := if (max_length <? _)%Z then _ else _).
  assert (Hlen : (Z.of_nat (String.length cleaned) <= max_length)%Z).
  { subst cleaned.
    destruct (max_length <? _)%Z eqn:Hlong; [|apply Z.ltb_ge in Hlong; exact Hlong].
    unfold slice_to. apply Z.leb_le in Hmax. rewrite Hmax.
    pose proof (prefix_length (Z.to_nat max_length) (re_sub_forbidden sheet_name)).
    apply Z.leb_le in Hmax. lia. }
  destruct (negb (Str.truthy (Str.strip cleaned))); simpl; lia.
Qed.

Lemma clean_sheet_name_fixed sheet_name max_length :
  Forall (fun c => forbidden c = false) (chars sheet_name) ->
  (Z.of_nat (String.length sheet_name) <= max_length)%Z ->
  Str.strip sheet_name <> "" ->
  _clean_sheet_name sheet_name max_length = sheet_name.
Proof.
  intros Hchars Hlen Hblank. unfold _clean_sheet_name.
  rewrite (re_sub_forbidden_fixed _ Hchars).
  apply Z.ltb_ge in Hlen. rewrite Hlen.
  destruct (Str.strip sheet_name); [contradiction | reflexivity].
Qed.

End SheetNames.

(** X1. Whatever the name and the length limit, the cleaned sheet name
    contains none of the characters [\ / * ? [ ] :] and is not blank:
    stripping it leaves something. *)
Theorem clean_sheet_name_is_usable (sheet_name : string) (max_length : Z) :
  Forall (fun c => DataExporter.forbidden c = false)
    (chars (DataExporter._clean_sheet_name sheet_name max_length))
  /\ Str.strip (DataExporter._clean_sheet_name sheet_name max_length) <> "".
Proof.
  split; [apply clean_sheet_name_chars | apply clean_sheet_name_not_blank].
Qed.

(** X2. For a limit that is not negative the cleaned sheet name has at
    most [max(max_length, 6)] characters: the limit itself from 6
    upwards, so 31 by default, while under a smaller limit a blank
    name still becomes the six characters of ["Sheet1"]. *)
Theorem clean_sheet_name_length (sheet_name : string) (max_length : Z) :
  (0 <= max_length)%Z ->
  (Z.of_nat (String.length (DataExporter._clean_sheet_name sheet_name max_length))
   <= Z.max max_length 6)%Z
  /\ ((6 <= max_length)%Z ->
      (Z.of_nat (String.length (DataExporter._clean_sheet_name sheet_name max_length))
       <= max_length)%Z).
Proof.
  intros Hmax. pose proof (clean_sheet_name_bound sheet_name max_length Hmax).
  split; [assumption | lia].
Qed.

Lemma clean_sheet_name_length_witness :
  (Z.of_nat (String.length
     (DataExporter._clean_sheet_name
        "a very long sheet name that goes past the limit"
        DataExporter.default_max_length))
   <= 31)%Z
  /\ String.length (DataExporter._clean_sheet_name "  //  " 3) = 6.
Proof.
  split; [|reflexivity].
  apply (clean_sheet_name_length
           "a very long sheet name that goes past the limit"
           DataExporter.default_max_length);
    unfold DataExporter.default_max_length; lia.
Defined.

(** X3. A name that has no forbidden character, fits the limit and is
    not blank comes back unchanged. *)
Theorem clean_sheet_name_keeps_valid (sheet_name : string) (max_length : Z) :
  Forall (fun c => DataExporter.forbidden c = false) (chars sheet_name) ->
  (Z.of_nat (String.length sheet_name) <= max_length)%Z ->
  Str.strip sheet_name <> "" ->
  DataExporter._clean_sheet_name sheet_name max_length = sheet_name.
Proof. apply clean_sheet_name_fixed. Qed.

Lemma clean_sheet_name_keeps_valid_witness :
  DataExporter._clean_sheet_name "Table_12" 31 = "Table_12".
Proof.
  apply clean_sheet_name_keeps_valid;
    [repeat constructor | simpl; lia | discriminate].
Defined.

(** X4. With a limit of at least 6, cleaning a cleaned sheet name
    changes nothing. *)
Theorem clean_sheet_name_idempotent (sheet_name : string) (max_length : Z) :
  (6 <= max_length)%Z ->
  DataExporter._clean_sheet_name
    (DataExporter._clean_sheet_name sheet_name max_length) max_length
  = DataExporter._clean_sheet_name sheet_name max_length.
Proof.
  intros Hmax. apply clean_sheet_name_fixed.
  - apply clean_sheet_name_chars.
  - pose proof (clean_sheet_name_bound sheet_name max_length). lia.
  - apply clean_sheet_name_not_blank.
Qed.

Lemma clean_sheet_name_idempotent_witness :
  DataExporter._clean_sheet_name
    (DataExporter._clean_sheet_name "Q1/Q2: sales [draft]*?" 31) 31
  = "Q1Q2 sales draft".
Proof.
  rewrite (clean_sheet_name_idempotent "Q1/Q2: sales [draft]*?" 31); [reflexivity|lia].
Defined.

(** X5. Sheet names that differ only by a forbidden character are
    cleaned to the same name: inserting one anywhere in a name does
    not change the result, so distinct names can collide. *)
Theorem clean_sheet_name_collides (pre post : string) (c : ascii) (max_length : Z) :
  DataExporter.forbidden c = true ->
  DataExporter._clean_sheet_name (pre ++ String c post)%string max_length
  = DataExporter._clean_sheet_name (pre ++ post)%string max_length.
Proof.
  intros Hc. unfold DataExporter._clean_sheet_name.
  rewrite !re_sub_forbidden_app. simpl. rewrite Hc. reflexivity.
Qed.

Lemma clean_sheet_name_collides_witness :
  DataExporter._clean_sheet_name "Q1/Q2" 31 = DataExporter._clean_sheet_name "Q1Q2" 31.
Proof.
  apply (clean_sheet_name_collides "Q1" "Q2" "/"%char 31). reflexivity.
Defined.

(** ** More facts about the method monad *)

Lemma result_bind_return {A B} (m : M A) (k : A -> M B) st a st1 :
  m st = (Return a, st1) -> result (bind m k) st = result (k a) st1.
Proof. intros H. unfold result, bind. rewrite H. reflexivity. Qed.

Lemma result_bind_raise {A B} (m : M A) (k : A -> M B) st e :
  result m st = Raise e -> result (bind m k) st = Raise e.
Proof.
  unfold result, bind. destruct (m st) as [[a|e1] st1]; simpl;
    [discriminate | intros H; injection H as ->; reflexivity].
Qed.

Lemma result_call_bind {A B} (o : outcome A) (k : A -> M B) st a :
  o = Return a -> result (bind (call o) k) st = result (k a) st.
Proof. intros ->. reflexivity. Qed.

(** A loop raises as soon as one element makes its body raise. *)
Lemma for_enumerate_raises {A T} (body : nat -> A -> T -> M T) (bad : A -> Prop) :
  (forall i x acc st, bad x -> exists e, result (body i x acc) st = Raise e) ->
  forall xs, Exists bad xs ->
  forall start acc st,
    exists e, result (for_enumerate start xs body acc) st = Raise e.
Proof.
  intros Hbad xs. induction 1 as [x xs Hx|x xs _ IH]; intros start acc st; simpl.
  - destruct (Hbad start x acc st Hx) as [e He].
    exists e. apply result_bind_raise, He.
  - destruct (body start x acc st) as [[acc1|e] st1] eqn:Hstep.
    + destruct (IH (S start) acc1 st1) as [e He]. exists e.
      rewrite (result_bind_return _ _ _ _ _ Hstep). exact He.
    + exists e. apply result_bind_raise. unfold result. rewrite Hstep. reflexivity.
Qed.

(** A loop whose body returns on every element folds the answers. *)
Lemma for_enumerate_collects {A T X} (body : nat -> A -> T -> M T)
    (answers : A -> X -> Prop) (step : T -> X -> T) :
  (forall i x y acc st,
      answers x y -> result (body i x acc) st = Return (step acc y)) ->
  forall xs ys, Forall2 answers xs ys ->
  forall start acc st,
    result (for_enumerate start xs body acc) st = Return (fold_left step ys acc).
Proof.
  intros Hbody xs ys. induction 1 as [|x y xs ys Hxy _ IH]; intros start acc st;
    simpl; [reflexivity|].
  pose proof (Hbody start x y acc st Hxy) as Hstep. unfold result in Hstep.
  destruct (body start x acc st) as [o st1] eqn:Hrun. simpl in Hstep. subst o.
  rewrite (result_bind_return _ _ _ _ _ Hrun). apply IH.
Qed.

(** ** The public methods on a digital or scanned document *)

Section PublicMethods.

Variable w : World.

Lemma detect_pdf_type_any_state pdf_path st st1 :
  result (_detect_pdf_type w pdf_path) st = result (_detect_pdf_type w pdf_path) st1.
Proof.
  unfold _detect_pdf_type. run_method.
  destruct (pdfplumber_open w pdf_path) as [pdf|e]; simpl; [|reflexivity].
  destruct (pages pdf) as [[|first_page rest]|e]; simpl; try reflexivity.
  destruct (page_extract_text first_page) as [[t|]|e]; simpl; try reflexivity.
  destruct (Str.truthy t && (50 <? String.length (Str.strip t))%nat); reflexivity.
Qed.

Lemma detect_pdf_type_digital pdf_path st pdf first_page rest t :
  pdfplumber_open w pdf_path = Return pdf ->
  pages pdf = Return (first_page :: rest) ->
  page_extract_text first_page = Return (Some t) ->
  50 < String.length (Str.strip t) ->
  result (_detect_pdf_type w pdf_path) st = Return "digital".
Proof.
  intros Hopen Hpages Htext Hlen. unfold _detect_pdf_type. run_method.
  rewrite Hopen; simpl. rewrite Hpages; simpl. rewrite Htext; simpl.
  assert (Ht : Str.truthy t = true).
  { destruct t; [simpl in Hlen; lia | reflexivity]. }
  apply Nat.ltb_lt in Hlen. rewrite Ht, Hlen. reflexivity.
Qed.

(** On the digital branch [extract_text] answers what the digital path
    answers, or the empty string when that path raises. *)
Lemma extract_text_digital_branch pdf_path st :
  path_exists w pdf_path = Return true ->
  result (_detect_pdf_type w pdf_path) st = Return "digital" ->
  exists st2,
    result (extract_text w pdf_path) st
    = match result (_extract_text_digital w pdf_path) st2 with
      | Return text => Return text
      | Raise _ => Return ""
      end.
Proof.
  intros Hex Hdigital. unfold result in Hdigital.
  destruct (_detect_pdf_type w pdf_path st) as [o st1] eqn:Hdetect.
  simpl in Hdigital. subst o.
  exists (snd (logging_info (ProcessingText "digital" pdf_path)
                 (snd (set_extraction_mode pdf_path st1)))).
  unfold extract_text. rewrite Hex, bind_call_return; simpl.
  unfold result, try_except, bind at 1. rewrite Hdetect.
  unfold bind at 1; simpl. unfold bind at 1; simpl. unfold bind at 1.
  destruct (_extract_text_digital w pdf_path _) as [[text|e] st3]; reflexivity.
Qed.

(** On the digital branch [extract_tables] answers what the digital
    path answers, or the empty list when that path raises. *)
Lemma extract_tables_digital_branch pdf_path st :
  path_exists w pdf_path = Return true ->
  result (_detect_pdf_type w pdf_path) st = Return "digital" ->
  exists st2,
    result (extract_tables w pdf_path) st
    = match result (_extract_tables_digital w pdf_path) st2 with
      | Return tables => Return tables
      | Raise _ => Return []
      end.
Proof.
  intros Hex Hdigital. unfold result in Hdigital.
  destruct (_detect_pdf_type w pdf_path st) as [o st1] eqn:Hdetect.
  simpl in Hdigital. subst o.
  exists (snd (logging_info (ProcessingTables "digital" pdf_path)
                 (snd (set_extraction_mode "digital" st1)))).
  unfold extract_tables. rewrite Hex, bind_call_return; simpl.
  unfold result, try_except, bind at 1. rewrite Hdetect.
  unfold bind at 1; simpl. unfold bind at 1; simpl. unfold bind at 1.
  destruct (_extract_tables_digital w pdf_path _) as [[tables|e] st3]; reflexivity.
Qed.

Lemma extract_text_digital_page_raises page_num page all_text st :
  (exists e, page_extract_text page = Raise e) ->
  exists e, result (_extract_text_digital_page page_num page all_text) st = Raise e.
Proof.
  intros [e He]. exists e. unfold _extract_text_digital_page.
  apply result_bind_raise. unfold result, call. rewrite He. reflexivity.
Qed.

Lemma extract_text_digital_raises pdf_path st pdf ps :
  pdfplumber_open w pdf_path = Return pdf ->
  pages pdf = Return ps ->
  Exists (fun page => exists e, page_extract_text page = Raise e) ps ->
  exists e, result (_extract_text_digital w pdf_path) st = Raise e.
Proof.
  intros Hopen Hpages Hbad. unfold _extract_text_digital.
  rewrite (result_call_bind _ _ _ _ Hopen), (result_call_bind _ _ _ _ Hpages).
  destruct (for_enumerate_raises _ _ extract_text_digital_page_raises ps Hbad 0 [] st)
    as [e He].
  exists e. apply result_bind_raise, He.
Qed.

Lemma kept_tables_app a b : kept_tables (a ++ b) = kept_tables a ++ kept_tables b.
Proof. unfold kept_tables. apply flat_map_app. Qed.

Lemma extract_tables_digital_table_ok page_num table_num candidate all_tables st :
  result (_extract_tables_digital_table page_num table_num candidate all_tables) st
  = Return (all_tables ++ kept_tables [candidate]).
Proof.
  unfold _extract_tables_digital_table, kept_tables; simpl.
  destruct (clean_table candidate) as [|row rows]; simpl.
  - rewrite app_nil_r. reflexivity.
  - reflexivity.
Qed.

Lemma fold_kept_tables candidates : forall all_tables,
  fold_left (fun acc candidate => acc ++ kept_tables [candidate]) candidates all_tables
  = all_tables ++ kept_tables candidates.
Proof.
  induction candidates as [|c candidates IH]; intros all_tables.
  - simpl. rewrite app_nil_r. reflexivity.
  - cbn [fold_left]. rewrite IH, <- app_assoc.
    change (c :: candidates) with ([c] ++ candidates).
    rewrite (kept_tables_app [c] candidates). reflexivity.
Qed.

Lemma extract_tables_digital_page_ok page_num page candidates all_tables st :
  page_extract_tables page = Return candidates ->
  result (_extract_tables_digital_page page_num page all_tables) st
  = Return (all_tables ++ kept_tables candidates).
Proof.
  intros Hpage. unfold _extract_tables_digital_page.
  rewrite (result_call_bind _ _ _ _ Hpage).
  rewrite (for_enumerate_collects (_extract_tables_digital_table page_num)
             (fun candidate same => same = candidate)
             (fun acc candidate => acc ++ kept_tables [candidate]))
    with (ys := candidates).
  - rewrite fold_kept_tables. reflexivity.
  - intros i x y acc s ->. apply extract_tables_digital_table_ok.
  - clear. induction candidates; constructor; auto.
Qed.

Lemma fold_kept_pages found : forall all_tables,
  fold_left (fun acc candidates => acc ++ kept_tables candidates) found all_tables
  = all_tables ++ kept_tables (concat found).
Proof.
  induction found as [|candidates found IH]; intros all_tables.
  - simpl. rewrite app_nil_r. reflexivity.
  - cbn [fold_left concat]. rewrite IH, <- app_assoc, kept_tables_app.
    reflexivity.
Qed.

Lemma extract_tables_digital_collects pdf_path st pdf ps found :
  pdfplumber_open w pdf_path = Return pdf ->
  pages pdf = Return ps ->
  pages_tabled ps found ->
  result (_extract_tables_digital w pdf_path) st
  = Return (kept_tables (concat found)).
Proof.
  intros Hopen Hpages Hfound. unfold _extract_tables_digital.
  rewrite (result_call_bind _ _ _ _ Hopen), (result_call_bind _ _ _ _ Hpages).
  rewrite (for_enumerate_collects _extract_tables_digital_page
             (fun page candidates => page_extract_tables page = Return candidates)
             (fun acc candidates => acc ++ kept_tables candidates))
    with (ys := found).
  - rewrite fold_kept_pages. reflexivity.
  - intros i page candidates acc s. apply extract_tables_digital_page_ok.
  - exact Hfound.
Qed.

Lemma extract_tables_digital_page_raises page_num page all_tables st :
  (exists e, page_extract_tables page = Raise e) ->
  exists e, result (_extract_tables_digital_page page_num page all_tables) st = Raise e.
Proof.
  intros [e He]. exists e. unfold _extract_tables_digital_page.
  apply result_bind_raise. unfold result, call. rewrite He. reflexivity.
Qed.

Lemma extract_tables_digital_raises pdf_path st pdf ps :
  pdfplumber_open w pdf_path = Return pdf ->
  pages pdf = Return ps ->
  Exists (fun page => exists e, page_extract_tables page = Raise e) ps ->
  exists e, result (_extract_tables_digital w pdf_path) st = Raise e.
Proof.
  intros Hopen Hpages Hbad. unfold _extract_tables_digital.
  rewrite (result_call_bind _ _ _ _ Hopen), (result_call_bind _ _ _ _ Hpages).
  exact (for_enumerate_raises _ _ extract_tables_digital_page_raises ps Hbad 0 [] st).
Qed.

End PublicMethods.

(** X6. For an existing document whose first page has more than 50
    stripped characters of text and whose pages all answer
    [extract_tables], [extract_tables] returns the cleaned candidates
    that keep a row, in page order and within a page in the order
    reported, as one flat list. *)
Theorem extract_tables_digital_document (w : World) (pdf_path : string) (st : state)
    (pdf : PDF) (first_page : Page) (rest : list Page) (t : string)
    (found : list (list Candidate)) :
  path_exists w pdf_path = Return true ->
  pdfplumber_open w pdf_path = Return pdf ->
  pages pdf = Return (first_page :: rest) ->
  page_extract_text first_page = Return (Some t) ->
  50 < String.length (Str.strip t) ->
  pages_tabled (first_page :: rest) found ->
  result (extract_tables w pdf_path) st = Return (kept_tables (concat found)).
Proof.
  intros Hex Hopen Hpages Htext Hlen Hfound.
  pose proof (detect_pdf_type_digital w pdf_path st pdf first_page rest t
                Hopen Hpages Htext Hlen) as Hdigital.
  destruct (extract_tables_digital_branch w pdf_path st Hex Hdigital) as [st2 ->].
  rewrite (extract_tables_digital_collects w pdf_path st2 pdf _ found Hopen Hpages Hfound).
  reflexivity.
Qed.

Lemma extract_tables_digital_document_witness :
  result (extract_tables Fixtures.world "digital.pdf") Fixtures.fresh
  = Return [[["Item"; "Qty"; ""]; [""; "2"; "4.50"]]; [["x"]]].
Proof.
  refine (eq_trans
            (extract_tables_digital_document Fixtures.world "digital.pdf"
               Fixtures.fresh Fixtures.digital_pdf _ _ Fixtures.page_one
               [[Fixtures.items; Fixtures.blank]; []; [[Some [Some "x"]]]]
               eq_refl eq_refl eq_refl eq_refl _ _)
            eq_refl).
  - vm_compute. lia.
  - repeat constructor.
Defined.

(** X7. For an existing document whose first page has more than 50
    stripped characters of text, if [extract_tables] raises on any
    page, [extract_tables] returns the empty list: the tables of the
    pages before it are not returned. *)
Theorem extract_tables_digital_failure (w : World) (pdf_path : string) (st : state)
    (pdf : PDF) (first_page : Page) (rest : list Page) (t : string) :
  path_exists w pdf_path = Return true ->
  pdfplumber_open w pdf_path = Return pdf ->
  pages pdf = Return (first_page :: rest) ->
  page_extract_text first_page = Return (Some t) ->
  50 < String.length (Str.strip t) ->
  Exists (fun page => exists e, page_extract_tables page = Raise e)
    (first_page :: rest) ->
  result (extract_tables w pdf_path) st = Return [].
Proof.
  intros Hex Hopen Hpages Htext Hlen Hbad.
  pose proof (detect_pdf_type_digital w pdf_path st pdf first_page rest t
                Hopen Hpages Htext Hlen) as Hdigital.
  destruct (extract_tables_digital_branch w pdf_path st Hex Hdigital) as [st2 ->].
  destruct (extract_tables_digital_raises w pdf_path st2 pdf _ Hopen Hpages Hbad)
    as [e ->].
  reflexivity.
Qed.

Lemma extract_tables_digital_failure_witness :
  result (extract_tables Torn.world "torn.pdf") Fixtures.fresh = Return [].
Proof.
  apply (extract_tables_digital_failure Torn.world "torn.pdf" Fixtures.fresh
           Torn.torn_pdf _ _ Fixtures.page_one eq_refl eq_refl eq_refl eq_refl).
  - vm_compute. lia.
  - apply Exists_cons_tl, Exists_cons_hd. eexists. reflexivity.
Defined.

(** X8. For an existing document whose pages all answer
    [extract_text] and whose first page has more than 50 stripped
    characters of text, [extract_text] returns the non-empty page
    texts, in page order, joined by single newlines. *)
Theorem extract_text_digital_document (w : World) (pdf_path : string) (st : state)
    (pdf : PDF) (ps : list Page) (t : string) (others : list (option string)) :
  path_exists w pdf_path = Return true ->
  pdfplumber_open w pdf_path = Return pdf ->
  pages pdf = Return ps ->
  pages_read ps (Some t :: others) ->
  50 < String.length (Str.strip t) ->
  result (extract_text w pdf_path) st
  = Return (Str.join Str.nl (kept_texts (Some t :: others))).
Proof.
  intros Hex Hopen Hpages Hread Hlen.
  assert (Hdigital : result (_detect_pdf_type w pdf_path) st = Return "digital").
  { inversion Hread as [|first_page text rest texts Hfirst Hrest]; subst.
    exact (detect_pdf_type_digital w pdf_path st pdf first_page rest t
             Hopen Hpages Hfirst Hlen). }
  destruct (extract_text_digital_branch w pdf_path st Hex Hdigital) as [st2 ->].
  rewrite (extract_text_digital_joins w pdf_path st2 pdf ps _ Hopen Hpages Hread).
  reflexivity.
Qed.

Lemma extract_text_digital_document_witness :
  result (extract_text Fixtures.world "digital.pdf") Fixtures.fresh
  = Return (Fixtures.page_one ++ Str.nl ++ Fixtures.page_two)%string.
Proof.
  refine (eq_trans
            (extract_text_digital_document Fixtures.world "digital.pdf"
               Fixtures.fresh Fixtures.digital_pdf _ Fixtures.page_one
               [None; Some Fixtures.page_two] eq_refl eq_refl eq_refl _ _)
            eq_refl).
  - repeat constructor.
  - vm_compute. lia.
Defined.

(** X9. For an existing document whose first page has more than 50
    stripped characters of text, if [extract_text] raises on any later
    page, [extract_text] returns the empty string: the text of the
    pages read before it is not returned. *)
Theorem extract_text_digital_failure (w : World) (pdf_path : string) (st : state)
    (pdf : PDF) (first_page : Page) (rest : list Page) (t : string) :
  path_exists w pdf_path = Return true ->
  pdfplumber_open w pdf_path = Return pdf ->
  pages pdf = Return (first_page :: rest) ->
  page_extract_text first_page = Return (Some t) ->
  50 < String.length (Str.strip t) ->
  Exists (fun page => exists e, page_extract_text page = Raise e) rest ->
  result (extract_text w pdf_path) st = Return "".
Proof.
  intros Hex Hopen Hpages Htext Hlen Hbad.
  pose proof (detect_pdf_type_digital w pdf_path st pdf first_page rest t
                Hopen Hpages Htext Hlen) as Hdigital.
  destruct (extract_text_digital_branch w pdf_path st Hex Hdigital) as [st2 ->].
  destruct (extract_text_digital_raises w pdf_path st2 pdf _ Hopen Hpages
              (Exists_cons_tl first_page Hbad))
    as [e ->].
  reflexivity.
Qed.

Lemma extract_text_digital_failure_witness :
  result (extract_text Torn.world "torn.pdf") Fixtures.fresh = Return "".
Proof.
  apply (extract_text_digital_failure Torn.world "torn.pdf" Fixtures.fresh
           Torn.torn_pdf _ _ Fixtures.page_one eq_refl eq_refl eq_refl eq_refl).
  - vm_compute. lia.
  - apply Exists_cons_hd. eexists. reflexivity.
Defined.

(** X10. For an existing document that classifies as scanned, when
    rasterization and the recognition of every page succeed,
    [extract_text] returns the cleaned page texts, one per page image
    and in page order, joined by blank lines. *)
Theorem extract_text_scanned_document (w : World) (pdf_path : string) (st : state)
    (images : list (Image w)) (raw : list string) :
  path_exists w pdf_path = Return true ->
  result (_detect_pdf_type w pdf_path) st = Return "scanned" ->
  convert_from_path w pdf_path 300 (poppler_path st) = Return images ->
  Forall2 (recognized w (tesseract_cmd st)) images raw ->
  result (extract_text w pdf_path) st
  = Return (Str.join (Str.nl ++ Str.nl)%string (map clean_ocr_text raw)).
Proof.
  intros Hex Hscanned Hconvert Hraw.
  destruct (extract_text_scanned_branch w pdf_path st Hex Hscanned)
    as (st2 & Htools & Hbranch).
  apply Hbranch. injection Htools as Hcmd Hpoppler.
  apply extract_text_scanned_joins with (images := images).
  - rewrite Hpoppler. exact Hconvert.
  - rewrite Hcmd. exact Hraw.
Qed.

Lemma extract_text_scanned_document_witness :
  result (extract_text Fixtures.world "scanned.pdf") Fixtures.fresh
  = Return ("Hello" ++ Str.nl ++ "world" ++ Str.nl ++ Str.nl ++ ""
            ++ Str.nl ++ Str.nl ++ "Bye")%string.
Proof.
  refine (eq_trans
            (extract_text_scanned_document Fixtures.world "scanned.pdf"
               Fixtures.fresh _
               [ String " " ("Hello " ++ Str.nl ++ "  " ++ Str.nl ++ " world")%string;
                 "   "; "Bye" ]
               eq_refl eq_refl eq_refl _)
            eq_refl).
  repeat constructor; eexists _, _, _; repeat split; reflexivity.
Defined.

(** X11. In the upload endpoint, which runs [extract_text], then
    [extract_tables], then reads the mode, the three steps never raise
    on an existing file, and the reported mode is the classification
    of the document, ['digital'] or ['scanned']: the path that
    [extract_text] left in the field is overwritten by
    [extract_tables]. *)
Theorem extraction_steps_report_classification (w : World) (file_path : string)
    (st : state) :
  path_exists w file_path = Return true ->
  exists text tables mode,
    result (extraction_steps w file_path) st = Return (text, tables, mode)
    /\ result (extract_text w file_path) st = Return text
    /\ Return mode = result (_detect_pdf_type w file_path) st
    /\ (mode = "digital" \/ mode = "scanned").
Proof.
  intros Hex.
  destruct (extract_text_returns w file_path st true Hex) as [text Htext].
  unfold result in Htext.
  destruct (extract_text w file_path st) as [o st1] eqn:Hrun1.
  simpl in Htext. subst o.
  destruct (extract_tables_returns w file_path st1 true Hex) as [tables Htables].
  pose proof (extract_tables_mode w file_path st1 Hex) as Hmode.
  unfold result in Htables. unfold final in Hmode.
  destruct (extract_tables w file_path st1) as [o st2] eqn:Hrun2.
  simpl in Htables, Hmode. subst o.
  exists text, tables, (_extraction_mode st2).
  rewrite (detect_pdf_type_any_state w file_path st st1).
  repeat split.
  - unfold extraction_steps.
    rewrite (result_bind_return _ _ _ _ _ Hrun1).
    rewrite (result_bind_return _ _ _ _ _ Hrun2). reflexivity.
  - unfold result. rewrite Hrun1. reflexivity.
  - exact Hmode.
  - destruct (detect_pdf_type_cases w file_path st1) as [Hc|Hc];
      rewrite Hc in Hmode; injection Hmode as ->; auto.
Qed.

Lemma extraction_steps_report_classification_witness :
  exists text tables,
    result (extraction_steps Fixtures.world "scanned.pdf") Fixtures.fresh
    = Return (text, tables, "scanned").
Proof.
  destruct (extraction_steps_report_classification Fixtures.world "scanned.pdf"
              Fixtures.fresh eq_refl)
    as (text & tables & mode & Hrun & _ & Hmode & _).
  exists text, tables. rewrite Hrun.
  change (result (_detect_pdf_type Fixtures.world "scanned.pdf") Fixtures.fresh)
    with (@Return string "scanned") in Hmode.
  injection Hmode as ->. reflexivity.
Defined.

(** ** More facts about the string operations *)

Section MoreStrFacts.

Import Str.

Lemma lstrip_fixed s : no_surrounding_whitespace s -> lstrip s = s.
Proof.
  intros [Hhead _]. destruct s as [|c r]; simpl; [reflexivity|].
  rewrite (Hhead c r eq_refl). reflexivity.
Qed.

Lemma rstrip_fixed s :
  (forall r c, s = (r ++ String c "")%string -> isspace c = false) ->
  rstrip s = s.
Proof.
  induction s as [|a s IH]; intros Hlast; simpl; [reflexivity|].
  destruct s as [|b s].
  - simpl. rewrite (Hlast "" a eq_refl). reflexivity.
  - rewrite IH; [reflexivity|].
    intros r c Hr. apply (Hlast (String a r) c). simpl. rewrite Hr. reflexivity.
Qed.

Lemma strip_fixed s : no_surrounding_whitespace s -> strip s = s.
Proof.
  intros Hs. unfold strip. rewrite (lstrip_fixed s Hs).
  apply rstrip_fixed. apply Hs.
Qed.

Lemma lstrip_chars c s : In c (chars (lstrip s)) -> In c (chars s).
Proof.
  induction s as [|a s IH]; simpl; [tauto|].
  destruct (isspace a); simpl; auto.
Qed.

Lemma rstrip_chars c s : In c (chars (rstrip s)) -> In c (chars s).
Proof.
  induction s as [|a s IH]; simpl; [tauto|].
  destruct (rstrip s) as [|b r].
  - destruct (isspace a); simpl; tauto.
  - simpl in *. intros [H|H]; auto.
Qed.

Lemma strip_chars c s : In c (chars (strip s)) -> In c (chars s).
Proof. intros H. apply lstrip_chars, rstrip_chars, H. Qed.

Lemma split_lines_no_newline s :
  Forall (fun line => ~ In newline (chars line)) (split_lines s).
Proof.
  induction s as [|c s IH]; simpl.
  - constructor; [intros []|constructor].
  - destruct (Ascii.eqb c newline) eqn:Hc.
    + constructor; [intros []|exact IH].
    + apply Ascii.eqb_neq in Hc.
      destruct (split_lines s) as [|piece pieces].
      * constructor; [|constructor]. simpl. intros [H|[]]. congruence.
      * inversion IH as [|? ? Hpiece Hpieces]; subst.
        constructor; [|exact Hpieces]. simpl. intros [H|H]; [congruence|auto].
Qed.

Lemma split_lines_line x :
  ~ In newline (chars x) -> split_lines x = [x].
Proof.
  induction x as [|c x IH]; simpl; intros Hx; [reflexivity|].
  destruct (Ascii.eqb c newline) eqn:Hc.
  - apply Ascii.eqb_eq in Hc. tauto.
  - rewrite IH; [reflexivity | tauto].
Qed.

Lemma split_lines_first x s :
  ~ In newline (chars x) ->
  split_lines (x ++ nl ++ s)%string = x :: split_lines s.
Proof.
  induction x as [|c x IH]; simpl; intros Hx; [reflexivity|].
  destruct (Ascii.eqb c newline) eqn:Hc.
  - apply Ascii.eqb_eq in Hc. tauto.
  - simpl in IH. rewrite IH; [reflexivity | tauto].
Qed.

(** Splitting a join of lines at the newlines gives the lines back. *)
Lemma split_lines_join lines :
  lines <> [] ->
  Forall (fun line => ~ In newline (chars line)) lines ->
  split_lines (join nl lines) = lines.
Proof.
  induction lines as [|x lines IH]; intros Hne Hall; [contradiction|].
  inversion Hall as [|? ? Hx Hrest]; subst.
  destruct lines as [|y lines].
  - simpl. apply split_lines_line, Hx.
  - change (join nl (x :: y :: lines))
      with (x ++ nl ++ join nl (y :: lines))%string.
    rewrite (split_lines_first x _ Hx), IH; [reflexivity | discriminate | exact Hrest].
Qed.

Lemma ocr_lines_clean text :
  Forall
    (fun line =>
       line <> "" /\ no_surrounding_whitespace line
       /\ ~ In newline (chars line))
    (ocr_lines text).
Proof.
  apply Forall_forall. intros line Hline. unfold ocr_lines in Hline.
  apply in_map_iff in Hline as (src & <- & Hsrc).
  apply filter_In in Hsrc as [Hsrc Hkeep].
  repeat split.
  - destruct (strip src); [discriminate | discriminate].
  - apply (StrFacts.strip_no_surrounding_whitespace src).
  - apply (StrFacts.strip_no_surrounding_whitespace src).
  - intros Hnl. apply strip_chars in Hnl.
    pose proof (split_lines_no_newline text) as Hall.
    rewrite Forall_forall in Hall. exact (Hall src Hsrc Hnl).
Qed.

Lemma ocr_lines_of_clean_lines lines :
  Forall (fun line => line <> "" /\ no_surrounding_whitespace line) lines ->
  map strip (filter (fun line => truthy (strip line)) lines) = lines.
Proof.
  induction 1 as [|line lines [Hne Hs] _ IH]; simpl; [reflexivity|].
  rewrite (strip_fixed line Hs).
  destruct line; [contradiction|]. simpl. rewrite IH.
  rewrite (strip_fixed _ Hs). reflexivity.
Qed.

Lemma split_clean_ocr_text text :
  ocr_lines text <> [] ->
  split_lines (clean_ocr_text text) = ocr_lines text.
Proof.
  intros Hne. change (clean_ocr_text text) with (join nl (ocr_lines text)).
  apply split_lines_join; [exact Hne|].
  eapply Forall_impl; [|apply ocr_lines_clean]. simpl. tauto.
Qed.

End MoreStrFacts.

(** X12. The cleanup of a page's recognised text keeps the lines of
    the text that are not blank, stripped and in order: either there
    is none and the result is empty, or the lines of the result are
    exactly these, each of them non-empty and without surrounding
    whitespace. *)
Theorem clean_ocr_text_lines (text : string) :
  (ocr_lines text = [] /\ clean_ocr_text text = "")
  \/ (Str.split_lines (clean_ocr_text text) = ocr_lines text
      /\ Forall (fun line => line <> "" /\ no_surrounding_whitespace line)
           (Str.split_lines (clean_ocr_text text))).
Proof.
  destruct (ocr_lines text) as [|line lines] eqn:Hlines.
  - left. split; [reflexivity|].
    change (clean_ocr_text text) with (Str.join Str.nl (ocr_lines text)).
    rewrite Hlines. reflexivity.
  - right. assert (Hne : ocr_lines text <> []) by (rewrite Hlines; discriminate).
    rewrite (split_clean_ocr_text text Hne). split; [exact Hlines|].
    eapply Forall_impl; [|apply ocr_lines_clean]. simpl. tauto.
Qed.

(** X13. Cleaning a cleaned page text changes nothing. *)
Theorem clean_ocr_text_idempotent (text : string) :
  clean_ocr_text (clean_ocr_text text) = clean_ocr_text text.
Proof.
  destruct (ocr_lines text) as [|line lines] eqn:Hlines.
  - change (clean_ocr_text text) with (Str.join Str.nl (ocr_lines text)).
    rewrite Hlines. reflexivity.
  - assert (Hne : ocr_lines text <> []) by (rewrite Hlines; discriminate).
    change (clean_ocr_text (clean_ocr_text text))
      with (Str.join Str.nl (ocr_lines (clean_ocr_text text))).
    unfold ocr_lines at 1. rewrite (split_clean_ocr_text text Hne).
    rewrite ocr_lines_of_clean_lines; [reflexivity|].
    eapply Forall_impl; [|apply ocr_lines_clean]. simpl. tauto.
Qed.

(** ** Cleaning a table again *)

Lemma clean_table_rows candidate :
  Forall (fun row => row <> [] /\ Forall no_surrounding_whitespace row)
    (clean_table candidate).
Proof.
  rewrite clean_table_kept_rows. apply Forall_forall. intros row Hrow.
  apply in_map_iff in Hrow as (cells & <- & Hcells).
  apply kept_rows_source in Hcells as [Hne _]. split.
  - destruct cells; [contradiction | discriminate].
  - apply Forall_forall. intros cell Hcell.
    apply in_map_iff in Hcell as (c & <- & _). apply clean_cell_stripped.
Qed.

Lemma clean_row_fixed row :
  Forall no_surrounding_whitespace row -> map clean_cell (map Some row) = row.
Proof.
  induction 1 as [|cell row Hcell _ IH]; [reflexivity|].
  cbn [map]. rewrite IH, clean_cell_some, (strip_fixed cell Hcell). reflexivity.
Qed.

Lemma clean_table_fixed table :
  Forall (fun row => row <> [] /\ Forall no_surrounding_whitespace row) table ->
  clean_table (as_candidate table) = table.
Proof.
  rewrite clean_table_kept_rows.
  induction 1 as [|row table [Hne Hrow] _ IH]; [reflexivity|].
  destruct row as [|cell row]; [contradiction|].
  change (kept_rows (as_candidate ((cell :: row) :: table)))
    with (map Some (cell :: row) :: kept_rows (as_candidate table)).
  cbn [map] in *. rewrite IH. f_equal.
  exact (clean_row_fixed (cell :: row) Hrow).
Qed.

(** X14. A table that [extract_tables] has cleaned comes back
    unchanged when it is cleaned again: read back as a candidate, a
    cleaned candidate is its own cleaning. *)
Theorem clean_table_idempotent (candidate : Candidate) :
  clean_table (as_candidate (clean_table candidate)) = clean_table candidate.
Proof. apply clean_table_fixed, clean_table_rows. Qed.

(** ** TextProcessor *)

Section PatternFacts.

Import TextProcessor.

Variable re_search : string -> string -> outcome (option Match).

Lemma extract_with_patterns_skips text pre rest :
  Forall (fun pattern => re_search pattern text = Return None) pre ->
  _extract_with_patterns re_search text (pre ++ rest)
  = _extract_with_patterns re_search text rest.
Proof.
  induction 1 as [|pattern pre Hnone _ IH]; simpl; [reflexivity|].
  rewrite Hnone. exact IH.
Qed.

Lemma matched_text_stripped m found :
  matched_text m = Return found -> no_surrounding_whitespace found.
Proof.
  unfold matched_text.
  destruct (lastindex m) as [[|k]|]; [| destruct (group1 m) as [g|] |];
    intros H; try discriminate; injection H as <-;
    apply StrFacts.strip_no_surrounding_whitespace.
Qed.

Lemma extract_with_patterns_found text patterns found records :
  _extract_with_patterns re_search text patterns = (Return (Some found), records) ->
  records = []
  /\ exists pattern m,
       In pattern patterns
       /\ re_search pattern text = Return (Some m)
       /\ matched_text m = Return found.
Proof.
  induction patterns as [|pattern patterns IH]; simpl; [discriminate|].
  destruct (re_search pattern text) as [[m|]|e] eqn:Hsearch; [| |discriminate].
  - destruct (matched_text m) as [got|e] eqn:Hm; [|discriminate].
    intros H; injection H as <- <-. split; [reflexivity|].
    exists pattern, m. auto.
  - intros H. destruct (IH H) as (Hrec & p & m & Hin & Hs & Hm).
    split; [exact Hrec|]. exists p, m. auto.
Qed.

End PatternFacts.

(** X15. When no pattern of the list matches the text (the empty list
    included), [_extract_with_patterns] returns [None] and logs one
    warning. *)
Theorem extract_with_patterns_no_match
    (re_search : string -> string -> outcome (option TextProcessor.Match))
    (text : string) (patterns : list string) :
  Forall (fun pattern => re_search pattern text = Return None) patterns ->
  TextProcessor._extract_with_patterns re_search text patterns
  = (Return None, [(WARNING, TextProcessor.NoPatternMatched)]).
Proof.
  intros Hnone.
  rewrite <- (app_nil_r patterns).
  rewrite (extract_with_patterns_skips re_search text patterns [] Hnone).
  reflexivity.
Qed.

Lemma extract_with_patterns_no_match_witness :
  TextProcessor._extract_with_patterns Torn.re_search "Invoice" ["x"; "\d+"]
  = (Return None, [(WARNING, TextProcessor.NoPatternMatched)]).
Proof.
  apply extract_with_patterns_no_match. repeat constructor.
Defined.

(** X16. The first pattern that does not come back empty decides:
    when the patterns before it find nothing, the result is that of
    searching with this pattern alone, be it a match or a raised
    error, and the patterns after it are not searched. *)
Theorem extract_with_patterns_first_wins
    (re_search : string -> string -> outcome (option TextProcessor.Match))
    (text : string) (pre post : list string) (pattern : string) :
  Forall (fun earlier => re_search earlier text = Return None) pre ->
  re_search pattern text <> Return None ->
  TextProcessor._extract_with_patterns re_search text (pre ++ pattern :: post)
  = TextProcessor.extract_with_custom_pattern re_search text pattern
  /\ fst (TextProcessor._extract_with_patterns re_search text (pre ++ pattern :: post))
     <> Return None.
Proof.
  intros Hpre Hhit.
  rewrite (extract_with_patterns_skips re_search text pre _ Hpre).
  unfold TextProcessor.extract_with_custom_pattern. simpl.
  destruct (re_search pattern text) as [[m|]|e]; [| contradiction |].
  - destruct (TextProcessor.matched_text m); split; [reflexivity | discriminate
                                                     | reflexivity | discriminate].
  - split; [reflexivity | discriminate].
Qed.

Lemma extract_with_patterns_first_wins_witness :
  TextProcessor._extract_with_patterns Torn.re_search "Invoice 0042 of 7"
    (["x"] ++ "\d+" :: ["("])
  = (Return (Some "0042"), [])
  /\ TextProcessor._extract_with_patterns Torn.re_search "Invoice"
       (["x"] ++ "(" :: ["\d+"])
     = (Raise "re.error", []).
Proof.
  split.
  - refine (eq_trans
              (proj1 (extract_with_patterns_first_wins Torn.re_search
                        "Invoice 0042 of 7" ["x"] ["("] "\d+" _ _))
              eq_refl).
    + repeat constructor.
    + discriminate.
  - refine (eq_trans
              (proj1 (extract_with_patterns_first_wins Torn.re_search
                        "Invoice" ["x"] ["\d+"] "(" _ _))
              eq_refl).
    + repeat constructor.
    + discriminate.
Defined.

(** X17. A string that [_extract_with_patterns] returns has no
    surrounding whitespace, is the stripped group of a match of one of
    the patterns, and comes without a warning. *)
Theorem extract_with_patterns_result
    (re_search : string -> string -> outcome (option TextProcessor.Match))
    (text : string) (patterns : list string) (found : string)
    (records : list (level * TextProcessor.notice)) :
  TextProcessor._extract_with_patterns re_search text patterns
  = (Return (Some found), records) ->
  no_surrounding_whitespace found
  /\ records = []
  /\ exists pattern m,
       In pattern patterns
       /\ re_search pattern text = Return (Some m)
       /\ TextProcessor.matched_text m = Return found.
Proof.
  intros Hrun.
  destruct (extract_with_patterns_found re_search text patterns found records Hrun)
    as (Hrec & pattern & m & Hin & Hs & Hm).
  split; [exact (matched_text_stripped m found Hm)|].
  split; [exact Hrec|]. exists pattern, m. auto.
Qed.

Lemma extract_with_patterns_result_witness :
  no_surrounding_whitespace "0042".
Proof.
  apply (extract_with_patterns_result Torn.re_search "Invoice 0042 of 7"
           ["x"; "\d+"] "0042" []).
  reflexivity.
Defined.
